(** * Cognee memory service (services/memory_service.py)

    A shallow embedding of the request handlers of the memory service:
    the world tag that isolates tenants, the cognify debounce, the
    in-memory cache of facts per world and the initialisation flag that
    gates every handler.  The knowledge engine (cognee) is external: it is
    modelled as an arbitrary function from the history of calls to the
    reply of the next call, and every call the handlers make is recorded. *)

From Stdlib Require Import ZArith String Ascii List Lia.
From stdpp Require Import base option list gmap strings pretty.

Local Open Scope Z_scope.

(** ** Python strings *)

Module PyStr.

(** [old in s]: [old] occurs in [s] as a substring. *)
Fixpoint contains (old s : string) : bool :=
  String.prefix old s ||
  match s with
  | EmptyString => false
  | String _ s' => contains old s'
  end.

(** The scan of [str.replace] for a non-empty [old]: left to right, an
    occurrence of [old] is replaced by [new] and the scan resumes after it
    ([skip] counts the characters of the occurrence still to pass). *)
Fixpoint replace_go (old new : string) (skip : nat) (s : string) : string :=
  match s with
  | EmptyString => EmptyString
  | String c s' =>
      match skip with
      | S k => replace_go old new k s'
      | O =>
          if String.prefix old s
          then new +:+ replace_go old new (String.length old - 1) s'
          else String c (replace_go old new 0 s')
      end
  end.

(** With an empty [old] Python puts [new] before every character and at
    the end. *)
Fixpoint intersperse (new s : string) : string :=
  match s with
  | EmptyString => new
  | String c s' => new +:+ String c (intersperse new s')
  end.

(** [s.replace(old, new)] *)
Definition replace (old new s : string) : string :=
  match old with
  | EmptyString => intersperse new s
  | String _ _ => replace_go old new 0 s
  end.

End PyStr.

(** ** The world tag *)

(** [f"[WORLD:{world_id}] "], the marker put before facts and queries. *)
Definition world_tag (world_id : string) : string :=
  "[WORLD:" +:+ world_id +:+ "] ".

(** [f"[WORLD:{request.world_id}] {fact}"] (remember, the list
    comprehension; recall, [search_query]). *)
Definition tag (world_id fact : string) : string :=
  world_tag world_id +:+ fact.

(** [text.replace(f"[WORLD:{request.world_id}] ", "")] (recall). *)
Definition untag (world_id text : string) : string :=
  PyStr.replace (world_tag world_id) "" text.

(** The characters the marker is built from. *)
Definition is_delimiter (c : ascii) : bool :=
  (Ascii.eqb c "[" || Ascii.eqb c "]" || Ascii.eqb c ":" || Ascii.eqb c " ")%char.

Fixpoint delimiter_free (world_id : string) : bool :=
  match world_id with
  | EmptyString => true
  | String c s => negb (is_delimiter c) && delimiter_free s
  end.


(** ** The engine and the state of the process *)

(** What [str(e)] and [traceback.format_exc()] give for a raised exception. *)
Record Exception := { exc_str : string; exc_traceback : string }.

(** The calls the service makes on cognee. *)
Inductive call :=
  | CPrune (metadata : bool)            (* cognee.prune.prune_system(metadata=..) *)
  | CAdd (text : string)                (* cognee.add(text) *)
  | CCognify                            (* cognee.cognify() *)
  | CSearch (query_type query : string) (* cognee.search(query_type, query) *).

(** One item of a search result, as recall reads its text. *)
Inductive raw_result :=
  | HasText (text : string)   (* hasattr(result, 'text') *)
  | DictText (text : string)  (* a dict with the key 'text' *)
  | Other (str : string)      (* anything else, read through str(result) *).

(** A call returns (a list of results for a search, of no use for the other
    calls; [None] and the empty list are both the empty list here) or raises. *)
Inductive reply :=
  | Returned (results : list raw_result)
  | Raised (e : Exception).

(** The engine: the reply to a call, given the calls made before it. *)
Definition Engine := list call -> call -> reply.

Inductive level := INFO | ERROR.

(** The module globals, with the calls made on the engine so far and the
    lines written to the logger. *)
Record State := mkState {
  cognee_initialized : bool;                   (* _cognee_initialized *)
  last_cognify_time : Z;                       (* _last_cognify_time *)
  world_memories : gmap string (list string);  (* _world_memories *)
  engine_calls : list call;
  log : list (level * string)
}.

(** The globals as the module defines them at import. *)
Definition initial_state : State := mkState false 0 ∅ [] [].

Definition set_cognee_initialized (b : bool) (st : State) : State :=
  mkState b (last_cognify_time st) (world_memories st) (engine_calls st) (log st).
Definition set_last_cognify_time (t : Z) (st : State) : State :=
  mkState (cognee_initialized st) t (world_memories st) (engine_calls st) (log st).
Definition set_world_memories (m : gmap string (list string)) (st : State) : State :=
  mkState (cognee_initialized st) (last_cognify_time st) m (engine_calls st) (log st).
Definition record_call (c : call) (st : State) : State :=
  mkState (cognee_initialized st) (last_cognify_time st) (world_memories st)
          (engine_calls st ++ [c]) (log st).
Definition write_log (l : level) (msg : string) (st : State) : State :=
  mkState (cognee_initialized st) (last_cognify_time st) (world_memories st)
          (engine_calls st) (log st ++ [(l, msg)]).

(** ** Handler bodies: state and exceptions *)

Definition M (A : Type) : Type := State -> (A + Exception) * State.

Definition ret {A} (a : A) : M A := fun st => (inl a, st).

Definition bind {A B} (m : M A) (k : A -> M B) : M B :=
  fun st =>
    match m st with
    | (inl a, st') => k a st'
    | (inr e, st') => (inr e, st')
    end.

Notation "x <- m ;; k" := (bind m (fun x => k))
  (at level 100, m at next level, right associativity).
Notation "m ;; k" := (bind m (fun _ => k))
  (at level 100, right associativity).

Definition gets {A} (f : State -> A) : M A := fun st => (inl (f st), st).
Definition modify (f : State -> State) : M unit := fun st => (inl tt, f st).

Definition logger_info (msg : string) : M unit := modify (write_log INFO msg).
Definition logger_error (msg : string) : M unit := modify (write_log ERROR msg).

(** [await cognee.<call>]: the call is recorded, its reply comes from the
    engine, and an exception propagates. *)
Definition await (eng : Engine) (c : call) : M (list raw_result) :=
  fun st =>
    match eng (engine_calls st) c with
    | Returned rs => (inl rs, record_call c st)
    | Raised e => (inr e, record_call c st)
    end.

(** [for x in xs: body(x)] *)
Fixpoint for_each {A} (xs : list A) (body : A -> M unit) : M unit :=
  match xs with
  | [] => ret tt
  | x :: xs' => body x ;; for_each xs' body
  end.

(** What a handler gives the transport: a response, or an [HTTPException]. *)
Inductive result (A : Type) :=
  | Ok (response : A)
  | HTTPException (status_code : Z) (detail : string).
Arguments Ok {A} response.
Arguments HTTPException {A} status_code detail.

Definition HTTP_503_SERVICE_UNAVAILABLE : Z := 503.
Definition HTTP_500_INTERNAL_SERVER_ERROR : Z := 500.

(** [try: body / except Exception as e: log it twice, raise HTTPException(500)]. *)
Definition try_except {A} (body : M A) (world_id what failed : string)
    (st : State) : result A * State :=
  match body st with
  | (inl a, st') => (Ok a, st')
  | (inr e, st') =>
      (HTTPException HTTP_500_INTERNAL_SERVER_ERROR (failed +:+ exc_str e),
       write_log ERROR (exc_traceback e)
         (write_log ERROR ("[" +:+ world_id +:+ "] ✗ " +:+ what +:+ exc_str e) st'))
  end.

(** The guard every handler starts with. *)
Definition not_initialized {A} (st : State) : result A * State :=
  (HTTPException HTTP_503_SERVICE_UNAVAILABLE
     "Cognee not initialized. Check service logs.", st).

(** ** Requests and responses (the pydantic models) *)

Record RememberRequest := {
  remember_world_id : string;   (* world_id, min_length=1 *)
  facts : list string           (* facts, min_items=1; metadata is never read *)
}.

Record RecallRequest := {
  recall_world_id : string;     (* world_id, min_length=1 *)
  query : string;               (* query, min_length=1 *)
  limit : nat                   (* limit, 1 <= limit <= 20, default 5 *)
}.

Record HealthResponse := {
  status : string;
  service : string;
  timestamp : string;
  health_cognee_initialized : bool
}.

Record RememberResponse := {
  remember_success : bool;
  remember_response_world_id : string;
  facts_stored : nat;
  remember_message : string
}.

Record RecallResponse := {
  recall_success : bool;
  recall_response_world_id : string;
  recall_response_query : string;
  results : list string;
  count : nat
}.

Record ClearWorldResponse := {
  clear_success : bool;
  clear_world_id : string;
  clear_message : string
}.

(** ** The handlers *)

Fixpoint repeat_string (s : string) (n : nat) : string :=
  match n with
  | O => ""
  | S k => s +:+ repeat_string s k
  end.

(** [startup_event]: prune the engine's system data; the flag records
    whether that worked, and a failure does not stop the process. *)
Definition startup_event (eng : Engine) (st : State) : State :=
  let body : M unit :=
    logger_info (repeat_string "=" 60) ;;
    logger_info "Starting Cognee Memory Service..." ;;
    logger_info (repeat_string "=" 60) ;;
    logger_info "Initializing Cognee..." ;;
    await eng (CPrune true) ;;
    modify (set_cognee_initialized true) ;;
    logger_info "✓ Cognee initialized successfully" ;;
    logger_info "✓ Memory Service ready on port 8001" ;;
    logger_info (repeat_string "=" 60) in
  match body st with
  | (inl _, st') => st'
  | (inr e, st') =>
      set_cognee_initialized false
        (write_log ERROR (exc_traceback e)
           (write_log ERROR ("✗ Failed to initialize Cognee: " +:+ exc_str e) st'))
  end.

(** [health_check]; [now_iso] is [datetime.utcnow().isoformat()]. *)
Definition health_check (now_iso : string) (st : State) : HealthResponse :=
  {| status := if cognee_initialized st then "healthy" else "unhealthy";
     service := "cognee-memory-service";
     timestamp := now_iso;
     health_cognee_initialized := cognee_initialized st |}.

(** The debounce test of remember: [now - _last_cognify_time > 30]. *)
Definition cognify_due (now last : Z) : bool := 30 <? now - last.

(** The facts of a request as they are sent to the engine. *)
Definition tagged_facts (request : RememberRequest) : list string :=
  map (tag (remember_world_id request)) (facts request).

(** [_world_memories[world_id]] after the [extend], the entry being created
    empty when the world is new. *)
Definition cache_facts (world_id : string) (fs : list string)
    (m : gmap string (list string)) : gmap string (list string) :=
  <[world_id := default [] (m !! world_id) ++ fs]> m.

(** The response remember returns. *)
Definition remember_response (request : RememberRequest) : RememberResponse :=
  {| remember_success := true;
     remember_response_world_id := remember_world_id request;
     facts_stored := length (facts request);
     remember_message :=
       "Successfully stored " +:+ pretty (length (facts request)) +:+ " facts" |}.

(** The [try] block of remember from the debounce on, once every fact is
    added; [now] is what [time.time()] gives. *)
Definition remember_after_adds (eng : Engine) (now : Z) (request : RememberRequest)
    : M RememberResponse :=
  let w := remember_world_id request in
  let n := pretty (length (facts request)) in
  last <- gets last_cognify_time ;;
  (if cognify_due now last then
     logger_info ("[" +:+ w +:+ "] Triggering knowledge graph update (cognify)...") ;;
     await eng CCognify ;;
     modify (set_last_cognify_time now)
   else
     logger_info ("[" +:+ w +:+
                  "] Skipping redundant cognify. Using recently updated graph.")) ;;
  m <- gets world_memories ;;
  modify (set_world_memories (cache_facts w (facts request) m)) ;;
  logger_info ("[" +:+ w +:+ "] ✓ Stored " +:+ n +:+ " facts successfully") ;;
  ret (remember_response request).

(** [await cognee.add(fact)], the body of the loop over the tagged facts. *)
Definition add_fact (eng : Engine) (fact : string) : M unit :=
  await eng (CAdd fact) ;; ret tt.

(** The [try] block of remember. *)
Definition remember_body (eng : Engine) (now : Z) (request : RememberRequest)
    : M RememberResponse :=
  let w := remember_world_id request in
  let n := pretty (length (facts request)) in
  logger_info ("[" +:+ w +:+ "] Remembering " +:+ n +:+ " fact(s)") ;;
  for_each (tagged_facts request) (add_fact eng) ;;
  remember_after_adds eng now request.

(** [POST /remember] *)
Definition remember (eng : Engine) (now : Z) (request : RememberRequest)
    (st : State) : result RememberResponse * State :=
  if negb (cognee_initialized st) then not_initialized st
  else try_except (remember_body eng now request) (remember_world_id request)
         "Error storing facts: " "Failed to store facts: " st.

(** The text recall takes from one item of the search result. *)
Definition result_text (r : raw_result) : string :=
  match r with
  | HasText text => text
  | DictText text => text
  | Other str => str
  end.

(** The [try] block of recall. *)
Definition recall_body (eng : Engine) (request : RecallRequest) : M RecallResponse :=
  let w := recall_world_id request in
  logger_info ("[" +:+ w +:+ "] Querying: '" +:+ query request +:+ "'") ;;
  let search_query := tag w (query request) in
  raw_results <- await eng (CSearch "INSIGHTS" search_query) ;;
  let results := map (fun r => untag w (result_text r)) (take (limit request) raw_results) in
  logger_info ("[" +:+ w +:+ "] ✓ Found " +:+ pretty (length results) +:+ " result(s)") ;;
  ret {| recall_success := true;
         recall_response_world_id := w;
         recall_response_query := query request;
         results := results;
         count := length results |}.

(** [POST /recall] *)
Definition recall (eng : Engine) (request : RecallRequest) (st : State)
    : result RecallResponse * State :=
  if negb (cognee_initialized st) then not_initialized st
  else try_except (recall_body eng request) (recall_world_id request)
         "Error querying facts: " "Failed to query facts: " st.

(** The response of clear_world: it has no field for a number of facts. *)
Definition clear_world_response (world_id : string) : ClearWorldResponse :=
  {| clear_success := true;
     clear_world_id := world_id;
     clear_message := "Cleared memory cache for world " +:+ world_id |}.

(** The [try] block of clear_world: the cache entry goes, the number of facts
    it held is written to the log, and the engine is not called. *)
Definition clear_world_body (world_id : string) : M ClearWorldResponse :=
  logger_info ("[" +:+ world_id +:+ "] Clearing world memory...") ;;
  m <- gets world_memories ;;
  match m !! world_id with
  | Some cached =>
      let fact_count := length cached in
      modify (set_world_memories (delete world_id m)) ;;
      logger_info ("[" +:+ world_id +:+ "] ✓ Cleared " +:+ pretty fact_count
                   +:+ " cached facts")
  | None => ret tt
  end ;;
  logger_info ("[" +:+ world_id +:+ "] ✓ World memory cleared") ;;
  ret (clear_world_response world_id).

(** [DELETE /clear_world/{world_id}] *)
Definition clear_world (world_id : string) (st : State)
    : result ClearWorldResponse * State :=
  if negb (cognee_initialized st) then not_initialized st
  else try_except (clear_world_body world_id) world_id
         "Error clearing world: " "Failed to clear world memory: " st.

(** ** Requests in flight together

    The handlers are coroutines on one event loop.  A handler runs alone
    from one [await] to the next; while it is suspended in an [await] the
    loop may resume any other handler.  A remember request is therefore a
    small machine whose steps are the stretches of code between awaits. *)

Record Task := {
  task_request : RememberRequest;
  task_now : Z                      (* what [time.time()] gives this request *)
}.

Inductive pc :=
  | Start
  | AwaitAdd (r : reply) (rest : list string)  (* in [await cognee.add(fact)] *)
  | AwaitCognify (r : reply)                   (* in [await cognee.cognify()] *)
  | Done (res : result RememberResponse).

(** The [except] block. *)
Definition remember_except (request : RememberRequest) (e : Exception)
    (st : State) : pc * State :=
  let w := remember_world_id request in
  (Done (HTTPException HTTP_500_INTERNAL_SERVER_ERROR
           ("Failed to store facts: " +:+ exc_str e)),
   write_log ERROR (exc_traceback e)
     (write_log ERROR ("[" +:+ w +:+ "] ✗ Error storing facts: " +:+ exc_str e) st)).

(** From the cache update to the [return]. *)
Definition remember_finish (request : RememberRequest) (st : State) : pc * State :=
  let w := remember_world_id request in
  let n := pretty (length (facts request)) in
  (Done (Ok (remember_response request)),
   write_log INFO ("[" +:+ w +:+ "] ✓ Stored " +:+ n +:+ " facts successfully")
     (set_world_memories (cache_facts w (facts request) (world_memories st)) st)).

(** After the last add: the debounce test, up to [await cognee.cognify()]. *)
Definition remember_debounce (eng : Engine) (t : Task) (st : State) : pc * State :=
  let w := remember_world_id (task_request t) in
  if cognify_due (task_now t) (last_cognify_time st) then
    let st1 :=
      write_log INFO ("[" +:+ w +:+ "] Triggering knowledge graph update (cognify)...") st in
    (AwaitCognify (eng (engine_calls st1) CCognify), record_call CCognify st1)
  else
    remember_finish (task_request t)
      (write_log INFO ("[" +:+ w +:+
         "] Skipping redundant cognify. Using recently updated graph.") st).

(** The [for] loop over the tagged facts, up to the next [await cognee.add]. *)
Definition remember_adds (eng : Engine) (t : Task) (pending : list string)
    (st : State) : pc * State :=
  match pending with
  | [] => remember_debounce eng t st
  | fact :: rest =>
      (AwaitAdd (eng (engine_calls st) (CAdd fact)) rest, record_call (CAdd fact) st)
  end.

(** One stretch of a remember request. *)
Definition step (eng : Engine) (t : Task) (p : pc) (st : State) : pc * State :=
  let request := task_request t in
  match p with
  | Start =>
      if negb (cognee_initialized st) then
        (Done (HTTPException HTTP_503_SERVICE_UNAVAILABLE
                 "Cognee not initialized. Check service logs."), st)
      else
        remember_adds eng t (tagged_facts request)
          (write_log INFO ("[" +:+ remember_world_id request +:+ "] Remembering "
                           +:+ pretty (length (facts request)) +:+ " fact(s)") st)
  | AwaitAdd (Raised e) _ => remember_except request e st
  | AwaitAdd (Returned _) rest => remember_adds eng t rest st
  | AwaitCognify (Raised e) => remember_except request e st
  | AwaitCognify (Returned _) =>
      remember_finish request (set_last_cognify_time (task_now t) st)
  | Done res => (Done res, st)
  end.

(** A request run with nothing else in flight. *)
Fixpoint run_alone (eng : Engine) (t : Task) (fuel : nat) (p : pc) (st : State)
    : pc * State :=
  match fuel with
  | O => (p, st)
  | S k => let '(p', st') := step eng t p st in run_alone eng t k p' st'
  end.

(** The event loop resumes request [i]. *)
Definition resume (eng : Engine) (tasks : list Task) (i : nat)
    (cfg : list pc * State) : list pc * State :=
  match tasks !! i, cfg.1 !! i with
  | Some t, Some p =>
      let '(p', st') := step eng t p cfg.2 in (<[i := p']> cfg.1, st')
  | _, _ => cfg
  end.

(** The requests [tasks], all arrived, resumed in the order [schedule]. *)
Definition run_schedule (eng : Engine) (tasks : list Task) (schedule : list nat)
    (st : State) : list pc * State :=
  fold_left (fun cfg i => resume eng tasks i cfg) schedule
            (map (fun _ => Start) tasks, st).

Definition is_cognify (c : call) : bool :=
  match c with CCognify => true | _ => false end.

(** How often the engine was asked to rebuild its graph. *)
Definition cognify_count (st : State) : nat :=
  length (List.filter is_cognify (engine_calls st)).

(** ** Engines and states used as examples *)

(** An engine that is up: every call returns, searches find nothing. *)
Definition ok_engine : Engine := fun _ _ => Returned [].

Definition boom : Exception :=
  {| exc_str := "boom"; exc_traceback := "Traceback (most recent call last): boom" |}.

(** An engine that is down: every call raises. *)
Definition down_engine : Engine := fun _ _ => Raised boom.

(** An engine that takes facts and fails to rebuild its graph. *)
Definition cognify_fails : Engine :=
  fun _ c => match c with CCognify => Raised boom | _ => Returned [] end.

(** The process after a startup that worked, and after one that did not. *)
Definition ready_state : State := startup_event ok_engine initial_state.
Definition degraded_state : State := startup_event down_engine initial_state.

Definition two_facts : RememberRequest :=
  {| remember_world_id := "w1"; facts := ["A"; "B"] |}.
Definition one_fact : RememberRequest :=
  {| remember_world_id := "w2"; facts := ["C"] |}.
Definition a_query : RecallRequest :=
  {| recall_world_id := "w1"; query := "A"; limit := 5 |}.

(** The world [w1] after two facts were remembered for it. *)
Definition two_facts_cached : State :=
  (remember ok_engine 100 two_facts ready_state).2.

(** Two requests whose clock readings lie within one window, and two orders
    in which the event loop may resume them: the second request resumed while
    the first is suspended in [await cognee.cognify()], and each request run
    to its end before the next. *)
Definition first_task : Task := {| task_request := two_facts; task_now := 1000 |}.
Definition second_task : Task := {| task_request := one_fact; task_now := 1001 |}.
Definition overlapping : list nat := [0; 0; 0; 1; 1; 0; 1]%nat.
Definition one_after_the_other : list nat := [0; 0; 0; 0; 1; 1; 1]%nat.

(** ** Assumptions on the engine *)

Definition add_never_raises (eng : Engine) : Prop :=
  forall h text, exists rs, eng h (CAdd text) = Returned rs.

Definition cognify_never_raises (eng : Engine) : Prop :=
  forall h, exists rs, eng h CCognify = Returned rs.

(** The calls [cs], made one after the other from the history [h], all
    return. *)
Fixpoint calls_returned (eng : Engine) (h cs : list call) : Prop :=
  match cs with
  | [] => True
  | c :: cs' => (exists rs, eng h c = Returned rs) /\ calls_returned eng (h ++ [c]) cs'
  end.

(** Between the states [st] and [st'] the engine raised: one of the calls
    recorded since [st] was answered with an exception. *)
Definition raised_between (eng : Engine) (st st' : State) : Prop :=
  exists h c rest e,
    engine_calls st' = h ++ c :: rest /\
    (length (engine_calls st) <= length h)%nat /\
    eng h c = Raised e.

(** Between the states [st] and [st'] the engine raised [e]: one of the calls
    recorded since [st] was answered with the exception [e]. *)
Definition raised_in_call (eng : Engine) (st st' : State) (e : Exception) : Prop :=
  exists h c rest,
    engine_calls st' = h ++ c :: rest /\
    (length (engine_calls st) <= length h)%nat /\
    eng h c = Raised e.

(** The state with the calls [cs] made after those already recorded. *)
Definition record_calls (cs : list call) (st : State) : State :=
  mkState (cognee_initialized st) (last_cognify_time st) (world_memories st)
          (engine_calls st ++ cs) (log st).

(** The state remember is in when the loop over the facts is over. *)
Definition after_adds_state (request : RememberRequest) (st : State) : State :=
  record_calls (map CAdd (tagged_facts request))
    (write_log INFO ("[" +:+ remember_world_id request +:+ "] Remembering "
                     +:+ pretty (length (facts request)) +:+ " fact(s)") st).

(** The lines the [except] block writes, last in the log. *)
Definition logged_failure (world_id what : string) (e : Exception) (st : State) : Prop :=
  exists l,
    log st = l ++ [(ERROR, "[" +:+ world_id +:+ "] ✗ " +:+ what +:+ exc_str e);
                   (ERROR, exc_traceback e)].

(** The lines clear_world writes for a world whose cache entry is [entry]. *)
Definition clear_world_log (world_id : string) (entry : option (list string))
    : list (level * string) :=
  [(INFO, "[" +:+ world_id +:+ "] Clearing world memory...")] ++
  match entry with
  | Some cached =>
      [(INFO, "[" +:+ world_id +:+ "] ✓ Cleared " +:+ pretty (length cached)
              +:+ " cached facts")]
  | None => []
  end ++
  [(INFO, "[" +:+ world_id +:+ "] ✓ World memory cleared")].

(** What the [try] block leaves, as the last stretch of the request. *)
Definition settle (t : Task) (x : (RememberResponse + Exception) * State) : pc * State :=
  match x with
  | (inl r, st') => (Done (Ok r), st')
  | (inr e, st') => remember_except (task_request t) e st'
  end.

(** Projections of the state through its updates, without touching the text
    of the log lines. *)
Ltac state_simpl :=
  cbn [cognee_initialized last_cognify_time world_memories engine_calls log
       set_cognee_initialized set_last_cognify_time set_world_memories
       record_call record_calls write_log fst snd] in *.

Ltac unfold_monad :=
  unfold logger_info, logger_error in *;
  unfold bind, ret, gets, modify, await in *;
  cbv beta iota in *.

(** ** The rest of the service *)

(** [root]: the service descriptor. *)
Record RootResponse := {
  root_service : string;
  root_version : string;
  root_status : string;
  root_endpoints : list (string * string)
}.

Definition root (st : State) : RootResponse :=
  {| root_service := "Cognee Memory Service";
     root_version := "1.0.0";
     root_status := if cognee_initialized st then "running" else "degraded";
     root_endpoints :=
       [("health", "GET /health"); ("remember", "POST /remember");
        ("recall", "POST /recall");
        ("clear_world", "DELETE /clear_world/{world_id}")] |}.

(** The [Field] constraints of the request models: what pydantic lets through
    to the handlers. *)
Definition valid_remember_request (request : RememberRequest) : bool :=
  (1 <=? String.length (remember_world_id request))%nat &&
  (1 <=? length (facts request))%nat.

Definition valid_recall_request (request : RecallRequest) : bool :=
  (1 <=? String.length (recall_world_id request))%nat &&
  (1 <=? String.length (query request))%nat &&
  (1 <=? limit request)%nat && (limit request <=? 20)%nat.

(** remember requests served one after the other, each with its clock
    reading. *)
Fixpoint remember_seq (eng : Engine) (requests : list (Z * RememberRequest))
    (st : State) : State :=
  match requests with
  | [] => st
  | (now, request) :: rest => remember_seq eng rest (remember eng now request st).2
  end.

(** A request in flight that has not reached the debounce test yet. *)
Definition before_debounce (p : pc) : nat :=
  match p with
  | Start | AwaitAdd _ _ => 1
  | AwaitCognify _ | Done _ => 0
  end.

(** No world is cached with an empty list of facts. *)
Definition entries_nonempty (st : State) : Prop :=
  forall (world_id : string) (cached : list string),
    world_memories st !! world_id = Some cached -> cached <> [].

(** The second of two facts fails on an engine that raises once a fact was
    added. *)
Definition second_add_fails : Engine :=
  fun h c =>
    match c with
    | CAdd _ => if existsb (fun c' => match c' with CAdd _ => true | _ => false end) h
                then Raised boom else Returned []
    | _ => Returned []
    end.

(** An engine that finds three tagged facts of the world [w1], one of each
    shape, for every search. *)
Definition finds_three : Engine :=
  fun _ c =>
    match c with
    | CSearch _ _ =>
        Returned [HasText "[WORLD:w1] A"; DictText "[WORLD:w1] B"; Other "[WORLD:w1] C"]
    | _ => Returned []
    end.

Definition two_at_most : RecallRequest :=
  {| recall_world_id := "w1"; query := "A"; limit := 2 |}.

(** The one call recall makes on the engine. *)
Definition recall_search (request : RecallRequest) : call :=
  CSearch "INSIGHTS" (tag (recall_world_id request) (query request)).

(** What recall makes of the items the engine found. *)
Definition recall_results (request : RecallRequest) (raw : list raw_result)
    : list string :=
  map (fun r => untag (recall_world_id request) (result_text r))
      (take (limit request) raw).

(** The requests of [pcs] that have not reached the debounce test. *)
Definition waiting (pcs : list pc) : nat := sum_list (map before_debounce pcs).

(** The facts that the requests [requests] hold for the world [world_id], in
    the order of the requests. *)
Definition facts_for (world_id : string) (requests : list (Z * RememberRequest))
    : list string :=
  flat_map (fun tr => if String.eqb (remember_world_id tr.2) world_id
                      then facts tr.2 else []) requests.

(** No character of [s] is an opening bracket. *)
Fixpoint bracket_free (s : string) : bool :=
  match s with
  | EmptyString => true
  | String c s' => negb (Ascii.eqb c "[") && bracket_free s'
  end.

(** An engine that answers every search with a fact of the world [w1]. *)
Definition finds_w1 : Engine :=
  fun _ c =>
    match c with
    | CSearch _ _ => Returned [HasText "[WORLD:w1] diamonds at X"]
    | _ => Returned []
    end.

Definition asks_w2 : RecallRequest :=
  {| recall_world_id := "w2"; query := "diamonds"; limit := 5 |}.

(** * Properties *)

(** ** The world tag and [str.replace] *)

Section Replace.

Lemma prefix_app (p s : string) : String.prefix p (p +:+ s) = true.
Proof.
  induction p as [|c p IH]; simpl.
  - destruct s; reflexivity.
  - destruct (Ascii.ascii_dec c c); [exact IH | congruence].
Qed.

(** Once inside an occurrence, the scan passes over what is left of it. *)
Lemma replace_go_skip (old new p s : string) :
  PyStr.replace_go old new (String.length p) (p +:+ s) = PyStr.replace_go old new 0 s.
Proof.
  induction p as [|c p IH]; simpl.
  - destruct s; reflexivity.
  - exact IH.
Qed.

Lemma replace_go_leading (c : ascii) (t new s : string) :
  PyStr.replace_go (String c t) new 0 (String c t +:+ s)
  = new +:+ PyStr.replace_go (String c t) new 0 s.
Proof.
  change (String c t +:+ s) with (String c (t +:+ s)).
  cbn [PyStr.replace_go].
  change (String c (t +:+ s)) with (String c t +:+ s).
  rewrite prefix_app.
  cbn [String.length]. rewrite Nat.sub_1_r. cbn [Nat.pred].
  now rewrite replace_go_skip.
Qed.

Lemma contains_tail (old : string) (c : ascii) (s : string) :
  PyStr.contains old (String c s) = false -> PyStr.contains old s = false.
Proof.
  cbn [PyStr.contains]. intros H. apply orb_false_elim in H. tauto.
Qed.

Lemma contains_prefix (old s : string) :
  PyStr.contains old s = false -> String.prefix old s = false.
Proof.
  destruct s; cbn [PyStr.contains]; intros H; apply orb_false_elim in H; tauto.
Qed.

(** Where [old] does not occur, [replace] changes nothing. *)
Lemma replace_go_absent (old new s : string) :
  PyStr.contains old s = false -> PyStr.replace_go old new 0 s = s.
Proof.
  induction s as [|c s IH]; intros H.
  - reflexivity.
  - cbn [PyStr.replace_go].
    rewrite (contains_prefix _ _ H).
    now rewrite (IH (contains_tail _ _ _ H)).
Qed.

End Replace.

(** Stripping a tagged text strips the text itself as well: the marker put in
    front goes, and so does every later occurrence of it. *)
Lemma untag_tag (world_id text : string) :
  untag world_id (tag world_id text) = untag world_id text.
Proof.
  unfold untag, tag, world_tag.
  change ("[WORLD:" +:+ world_id +:+ "] ")
    with (String "[" ("WORLD:" +:+ world_id +:+ "] ")).
  unfold PyStr.replace.
  now rewrite replace_go_leading.
Qed.

(** The round trip holds for the facts that do not contain their world's
    marker, whatever the world_id. *)
Lemma untag_tag_marker_free (world_id fact : string) :
  PyStr.contains (world_tag world_id) fact = false ->
  untag world_id (tag world_id fact) = fact.
Proof.
  intros H. rewrite untag_tag. unfold untag.
  unfold world_tag in *.
  change ("[WORLD:" +:+ world_id +:+ "] ")
    with (String "[" ("WORLD:" +:+ world_id +:+ "] ")) in *.
  unfold PyStr.replace. now apply replace_go_absent.
Qed.

(** C2 (on the code): for the world_id [a], free of delimiter characters, and
    a fact that itself contains the marker of that world, untagging the tagged
    fact does not give the fact back: [replace] removes every occurrence of
    the marker, not only the one put in front. *)
Theorem untag_tag_loses_marker_in_fact :
  delimiter_free "a" = true /\
  tag "a" "[WORLD:a] x" = "[WORLD:a] [WORLD:a] x" /\
  untag "a" (tag "a" "[WORLD:a] x") = "x" /\
  untag "a" (tag "a" "[WORLD:a] x") <> "[WORLD:a] x".
Proof.
  repeat split; try reflexivity.
  vm_compute. discriminate.
Qed.

(** ** Calls that return *)

Lemma calls_returned_app (eng : Engine) (cs1 cs2 h : list call) :
  calls_returned eng h cs1 -> calls_returned eng (h ++ cs1) cs2 ->
  calls_returned eng h (cs1 ++ cs2).
Proof.
  revert h. induction cs1 as [|c cs1 IH]; intros h H1 H2; cbn in *.
  - now rewrite app_nil_r in H2.
  - destruct H1 as [Hc H1]. split; [exact Hc|].
    apply IH; [exact H1|]. now rewrite <- app_assoc.
Qed.

(** Among calls that all return, none raised. *)
Lemma calls_returned_none_raised (eng : Engine) (cs h h1 rest : list call)
    (c : call) (e : Exception) :
  calls_returned eng h cs ->
  h ++ cs = h1 ++ c :: rest -> (length h <= length h1)%nat ->
  eng h1 c <> Raised e.
Proof.
  revert h. induction cs as [|c0 cs IH]; intros h Hret Heq Hlen.
  - rewrite app_nil_r in Heq. apply (f_equal (@length call)) in Heq.
    rewrite length_app in Heq. cbn in Heq. lia.
  - destruct Hret as [[rs Hrs] Hret].
    destruct (Nat.eq_dec (length h) (length h1)) as [Hsame|Hlonger].
    + apply app_inj_1 in Heq; [|exact Hsame].
      destruct Heq as [<- [= <- _]]. congruence.
    + apply (IH (h ++ [c0])); [exact Hret | |].
      * now rewrite <- app_assoc.
      * rewrite length_app. cbn. lia.
Qed.

(** ** The loop over the facts *)

Section Adds.

Variable eng : Engine.

(** Whatever the engine answers, adding facts changes nothing of the globals
    and writes no log line; it ends with every call recorded, or with the
    exception some add raised. *)
Lemma for_each_add_frame (xs : list string) (st : State) r st' :
  for_each xs (add_fact eng) st = (r, st') ->
  cognee_initialized st' = cognee_initialized st /\
  last_cognify_time st' = last_cognify_time st /\
  world_memories st' = world_memories st /\
  log st' = log st /\
  match r with
  | inl _ =>
      engine_calls st' = engine_calls st ++ map CAdd xs /\
      calls_returned eng (engine_calls st) (map CAdd xs)
  | inr e => exists h text, eng h (CAdd text) = Raised e
  end.
Proof.
  revert st. induction xs as [|x xs IH]; intros st; cbn [for_each].
  - unfold ret. intros [= <- <-]. rewrite app_nil_r. cbn. repeat split.
  - unfold bind at 1. unfold add_fact at 1. unfold bind, ret, await.
    destruct (eng (engine_calls st) (CAdd x)) as [rs|e] eqn:E.
    + intros H. apply IH in H. state_simpl.
      destruct H as (-> & -> & -> & -> & H). repeat split.
      destruct r; [|exact H]. destruct H as [H1 H2]. rewrite H1.
      cbn [map calls_returned]. rewrite <- app_assoc. split; eauto.
    + intros [= <- <-]. state_simpl. repeat split. eauto.
Qed.

Lemma for_each_add_ok (xs : list string) (st : State) :
  add_never_raises eng ->
  for_each xs (add_fact eng) st = (inl tt, record_calls (map CAdd xs) st).
Proof.
  intros Hadd. revert st. induction xs as [|x xs IH]; intros st; cbn [for_each].
  - unfold ret, record_calls. cbn [map]. rewrite app_nil_r. now destruct st.
  - unfold bind at 1. unfold add_fact at 1. unfold bind, ret, await.
    destruct (Hadd (engine_calls st) x) as [rs ->].
    rewrite IH. unfold record_calls, record_call. state_simpl.
    cbn [map]. now rewrite <- app_assoc.
Qed.

End Adds.

(** ** remember, when the engine takes every fact *)

Section RememberAddsOk.

Variable eng : Engine.
Hypothesis adds_ok : add_never_raises eng.

Lemma remember_ready_adds_ok (now : Z) (request : RememberRequest) (st : State) :
  cognee_initialized st = true ->
  remember eng now request st
  = try_except (remember_after_adds eng now request) (remember_world_id request)
      "Error storing facts: " "Failed to store facts: " (after_adds_state request st).
Proof.
  intros Hready. unfold remember. rewrite Hready. cbn [negb].
  unfold try_except, remember_body, after_adds_state.
  unfold bind at 1. unfold logger_info at 1. unfold modify at 1.
  unfold bind at 1. now rewrite for_each_add_ok.
Qed.

(** What one call leaves behind: the flag, the calls made and the watermark. *)
Lemma remember_ready_summary (now : Z) (request : RememberRequest) (st : State) :
  cognee_initialized st = true ->
  let st' := (remember eng now request st).2 in
  let sent := engine_calls st ++ map CAdd (tagged_facts request) in
  cognee_initialized st' = true /\
  engine_calls st'
  = sent ++ (if cognify_due now (last_cognify_time st) then [CCognify] else []) /\
  last_cognify_time st'
  = (if cognify_due now (last_cognify_time st) then
       match eng sent CCognify with
       | Returned _ => now
       | Raised _ => last_cognify_time st
       end
     else last_cognify_time st).
Proof.
  intros Hready. cbv zeta. rewrite remember_ready_adds_ok by exact Hready.
  unfold try_except, remember_after_adds, after_adds_state.
  unfold_monad. state_simpl.
  destruct (cognify_due now (last_cognify_time st)); cbv beta iota; state_simpl.
  - destruct (eng (engine_calls st ++ map CAdd (tagged_facts request)) CCognify);
      cbv beta iota; state_simpl; auto.
  - rewrite app_nil_r. auto.
Qed.

(** What one call answers and caches. *)
Lemma remember_ready_outcome (now : Z) (request : RememberRequest) (st : State) :
  cognee_initialized st = true ->
  let out := remember eng now request st in
  let sent := engine_calls st ++ map CAdd (tagged_facts request) in
  let cached :=
    cache_facts (remember_world_id request) (facts request) (world_memories st) in
  if cognify_due now (last_cognify_time st) then
    match eng sent CCognify with
    | Returned _ =>
        out.1 = Ok (remember_response request) /\ world_memories out.2 = cached
    | Raised e =>
        out.1 = HTTPException 500 ("Failed to store facts: " +:+ exc_str e) /\
        world_memories out.2 = world_memories st
    end
  else out.1 = Ok (remember_response request) /\ world_memories out.2 = cached.
Proof.
  intros Hready. cbv zeta. rewrite remember_ready_adds_ok by exact Hready.
  unfold try_except, remember_after_adds, after_adds_state.
  unfold_monad. state_simpl.
  destruct (cognify_due now (last_cognify_time st)); cbv beta iota; state_simpl.
  - destruct (eng (engine_calls st ++ map CAdd (tagged_facts request)) CCognify);
      cbv beta iota; state_simpl; auto.
  - auto.
Qed.

End RememberAddsOk.

Lemma cognify_count_app (cs : list call) (st : State) :
  cognify_count (record_calls cs st)
  = (cognify_count st + length (List.filter is_cognify cs))%nat.
Proof.
  unfold cognify_count. state_simpl.
  now rewrite List.filter_app, length_app.
Qed.

Lemma filter_cognify_adds (xs : list string) :
  List.filter is_cognify (map CAdd xs) = [].
Proof. induction xs; [reflexivity | exact IHxs]. Qed.

(** The number of rebuilds asked for, from the calls recorded. *)
Lemma cognify_count_calls (st st' : State) (xs : list string) (b : bool) :
  engine_calls st' = (engine_calls st ++ map CAdd xs) ++ (if b then [CCognify] else []) ->
  cognify_count st' = (cognify_count st + (if b then 1 else 0))%nat.
Proof.
  intros H. unfold cognify_count. rewrite H.
  rewrite !List.filter_app, !length_app, filter_cognify_adds.
  destruct b; cbn; lia.
Qed.

Lemma cognify_due_gt (now last : Z) : cognify_due now last = true <-> 30 < now - last.
Proof. unfold cognify_due. apply Z.ltb_lt. Qed.

Lemma cognify_due_le (now last : Z) : cognify_due now last = false <-> now - last <= 30.
Proof. unfold cognify_due. apply Z.ltb_ge. Qed.

(** ** The cognify debounce *)



Lemma ok_engine_add : add_never_raises ok_engine.
Proof. intros h text. now exists []. Qed.

Lemma ok_engine_cognify : cognify_never_raises ok_engine.
Proof. intros h. now exists []. Qed.








(** ** remember and recall on any engine *)

Section AnyEngine.

Variable eng : Engine.

(** A remember call in the ready state either answers a response, every call
    it made on the engine having returned, or answers HTTP 500 for an
    exception the engine raised, the cache and the watermark being those of
    before the call. *)
Lemma remember_outcome (now : Z) (request : RememberRequest) (st : State) :
  cognee_initialized st = true ->
  match remember eng now request st with
  | (Ok r, st') =>
      exists cs, engine_calls st' = engine_calls st ++ cs /\
                 calls_returned eng (engine_calls st) cs
  | (HTTPException s d, st') =>
      world_memories st' = world_memories st /\
      last_cognify_time st' = last_cognify_time st /\
      exists e,
        (exists h c, eng h c = Raised e) /\
        s = 500 /\ d = "Failed to store facts: " +:+ exc_str e /\
        logged_failure (remember_world_id request) "Error storing facts: " e st'
  end.
Proof.
  intros Hready. unfold remember. rewrite Hready. cbn [negb].
  unfold try_except, remember_body.
  unfold bind at 1. unfold logger_info at 1. unfold modify at 1.
  unfold bind at 1.
  match goal with |- context [for_each ?xs ?f ?s] =>
    destruct (for_each xs f s) as [[[]|e] st1] eqn:E end;
    apply for_each_add_frame in E; state_simpl;
    destruct E as (_ & El & Em & Elog & E).
  - destruct E as [Ec Eret].
    unfold remember_after_adds. unfold_monad. rewrite El.
    destruct (cognify_due now (last_cognify_time st)); cbv beta iota; state_simpl.
    + destruct (eng (engine_calls st1) CCognify) as [rs|e] eqn:Ecog;
        cbv beta iota; state_simpl.
      * exists (map CAdd (tagged_facts request) ++ [CCognify]).
        rewrite Ec, <- app_assoc. split; [reflexivity|].
        apply calls_returned_app; [exact Eret|].
        rewrite <- Ec. cbn. eauto.
      * repeat split; try assumption.
        exists e. repeat split; [eauto|]. unfold logged_failure. state_simpl.
        eexists. now rewrite <- app_assoc.
    + exists (map CAdd (tagged_facts request)). auto.
  - destruct E as (h & text & E).
    repeat split; try assumption.
    exists e. repeat split; [eauto|]. unfold logged_failure. state_simpl.
    eexists. now rewrite <- app_assoc.
Qed.

(** A recall call in the ready state that answers an error answers HTTP 500
    for an exception the engine raised. *)
Lemma recall_outcome (request : RecallRequest) (st : State) :
  cognee_initialized st = true ->
  match recall eng request st with
  | (Ok r, st') => True
  | (HTTPException s d, st') =>
      exists e,
        (exists h c, eng h c = Raised e) /\
        s = 500 /\ d = "Failed to query facts: " +:+ exc_str e /\
        logged_failure (recall_world_id request) "Error querying facts: " e st'
  end.
Proof.
  intros Hready. unfold recall. rewrite Hready. cbn [negb].
  unfold try_except, recall_body. unfold_monad. state_simpl.
  match goal with |- context [eng ?h ?c] => destruct (eng h c) as [rs|e] eqn:E end;
    cbv beta iota; state_simpl.
  - exact I.
  - exists e. repeat split; [eauto|]. unfold logged_failure. state_simpl.
    eexists. now rewrite <- app_assoc.
Qed.

End AnyEngine.

(** ** What the caller sees of an engine failure *)

(** C9, as the claim states it, fails: the exception text [boom] of the
    engine is part of the detail of the HTTP 500 that remember and recall
    answer. *)
Lemma error_detail_carries_exception_text :
  (remember down_engine 100 two_facts ready_state).1
  = HTTPException 500 "Failed to store facts: boom" /\
  (recall down_engine a_query ready_state).1
  = HTTPException 500 "Failed to query facts: boom" /\
  PyStr.contains (exc_str boom) "Failed to store facts: boom" = true /\
  PyStr.contains (exc_str boom) "Failed to query facts: boom" = true.
Proof. repeat split; reflexivity. Qed.

(** Where the loop over the facts stops on an exception: the adds before
    returned, and the last call recorded is the add that raised it. *)
Lemma for_each_add_raise_point (eng : Engine) (xs : list string) (st : State)
    (e : Exception) (st' : State) :
  for_each xs (add_fact eng) st = (inr e, st') ->
  exists cs c,
    engine_calls st' = engine_calls st ++ cs ++ [c] /\
    calls_returned eng (engine_calls st) cs /\
    eng (engine_calls st ++ cs) c = Raised e.
Proof.
  revert st. induction xs as [|x xs IH]; intros st; cbn [for_each].
  - unfold ret. discriminate.
  - unfold bind at 1. unfold add_fact at 1. unfold bind, ret, await.
    destruct (eng (engine_calls st) (CAdd x)) as [rs|e0] eqn:E.
    + intros H. apply IH in H as (cs & c & Hc & Hret & Hraise). state_simpl.
      exists (CAdd x :: cs), c. cbn [calls_returned app].
      rewrite <- app_assoc in Hc, Hraise. cbn [app] in Hc, Hraise.
      repeat split; eauto.
    + intros [= <- <-]. exists [], (CAdd x). state_simpl. cbn.
      rewrite app_nil_r. auto.
Qed.

(** The one exception of a call: when the calls [cs] returned and the call
    [c] after them raised [e], a call recorded among them that raised,
    raised [e]. *)
Lemma raise_point_unique (eng : Engine) (old cs h rest : list call) (c c' : call)
    (e e' : Exception) :
  calls_returned eng old cs ->
  eng (old ++ cs) c = Raised e ->
  old ++ cs ++ [c] = h ++ c' :: rest ->
  (length old <= length h)%nat ->
  eng h c' = Raised e' ->
  e' = e.
Proof.
  intros Hret Hraise Heq Hlen Hraise'.
  destruct rest as [|x rest _] using rev_ind.
  - rewrite app_assoc in Heq. apply app_inj_tail in Heq as [<- <-]. congruence.
  - exfalso. rewrite app_assoc, app_comm_cons, (app_assoc h) in Heq.
    apply app_inj_tail in Heq as [Heq _].
    now apply (calls_returned_none_raised eng cs old h rest c' e' Hret Heq Hlen).
Qed.

(** An error answer of remember in the ready state, with the call that
    raised. *)
Lemma remember_raise_point (eng : Engine) (now : Z) (request : RememberRequest)
    (st : State) (s : Z) (d : string) (st' : State) :
  cognee_initialized st = true ->
  remember eng now request st = (HTTPException s d, st') ->
  exists cs c e,
    engine_calls st' = engine_calls st ++ cs ++ [c] /\
    calls_returned eng (engine_calls st) cs /\
    eng (engine_calls st ++ cs) c = Raised e /\
    s = 500 /\ d = "Failed to store facts: " +:+ exc_str e /\
    logged_failure (remember_world_id request) "Error storing facts: " e st'.
Proof.
  intros Hready Hout. unfold remember in Hout. rewrite Hready in Hout.
  cbn [negb] in Hout. unfold try_except, remember_body in Hout.
  unfold bind at 1 in Hout. unfold logger_info at 1 in Hout.
  unfold modify at 1 in Hout. unfold bind at 1 in Hout.
  match type of Hout with context [for_each ?xs ?f ?s] =>
    destruct (for_each xs f s) as [[[]|e] st1] eqn:E end.
  - apply for_each_add_frame in E. state_simpl.
    destruct E as (_ & El & _ & _ & Ec & Eret).
    unfold remember_after_adds in Hout. unfold_monad. rewrite El in Hout.
    destruct (cognify_due now (last_cognify_time st)); cbv beta iota in Hout;
      state_simpl; [|discriminate].
    destruct (eng (engine_calls st1) CCognify) as [rs|e] eqn:Ecog;
      cbv beta iota in Hout; [discriminate|].
    injection Hout as <- <- <-.
    exists (map CAdd (tagged_facts request)), CCognify, e. state_simpl.
    rewrite Ec in *. rewrite <- app_assoc.
    repeat split; try assumption.
    unfold logged_failure. state_simpl. eexists. now rewrite <- app_assoc.
  - pose proof (for_each_add_raise_point _ _ _ _ _ E) as (cs & c & Hc & Hret & Hraise).
    state_simpl. injection Hout as <- <- <-.
    exists cs, c, e. state_simpl.
    repeat split; try assumption.
    unfold logged_failure. state_simpl. eexists. now rewrite <- app_assoc.
Qed.

(** C9 (amended): whenever a call that remember or recall made on the engine
    raised an exception [e], the handler answers HTTP 500 and the detail is
    [Failed to store facts: ] (remember) or [Failed to query facts: ]
    (recall) followed by [str(e)], the text of that exception; the traceback
    is in no part of the answer, it is written to the log with the message. *)
Theorem engine_error_detail (eng : Engine) (st : State) (e : Exception) :
  (forall now request,
     raised_in_call eng st (remember eng now request st).2 e ->
     (remember eng now request st).1
     = HTTPException 500 ("Failed to store facts: " +:+ exc_str e) /\
     logged_failure (remember_world_id request) "Error storing facts: " e
       (remember eng now request st).2) /\
  (forall request,
     raised_in_call eng st (recall eng request st).2 e ->
     (recall eng request st).1
     = HTTPException 500 ("Failed to query facts: " +:+ exc_str e) /\
     logged_failure (recall_world_id request) "Error querying facts: " e
       (recall eng request st).2).
Proof.
  assert (Hnone : forall h c rest,
            engine_calls st = h ++ c :: rest ->
            (length (engine_calls st) <= length h)%nat -> False).
  { intros h c rest Heq Hlen. apply (f_equal (@length call)) in Heq.
    rewrite length_app in Heq. cbn in Heq. lia. }
  split.
  - intros now request (h & c & rest & Hcalls & Hlen & Hraised).
    destruct (cognee_initialized st) eqn:Hready.
    + pose proof (remember_outcome eng now request st Hready) as Ho.
      destruct (remember eng now request st) as [[r|s d] st'] eqn:Hout;
        cbn [fst snd] in *.
      * destruct Ho as (cs & Hc & Hret). exfalso.
        apply (calls_returned_none_raised eng cs (engine_calls st) h rest c e Hret);
          [congruence | exact Hlen | exact Hraised].
      * destruct (remember_raise_point eng now request st s d st' Hready Hout)
          as (cs & c0 & e0 & Hc & Hret & Hr0 & -> & -> & Hlog).
        assert (e = e0) as ->
          by (apply (raise_point_unique eng (engine_calls st) cs h rest c0 c);
              congruence).
        now split.
    + exfalso. unfold remember in Hcalls. rewrite Hready in Hcalls.
      cbn in Hcalls. eauto.
  - intros request (h & c & rest & Hcalls & Hlen & Hraised).
    destruct (cognee_initialized st) eqn:Hready.
    + revert Hcalls. unfold recall. rewrite Hready. cbn [negb].
      unfold try_except, recall_body. unfold_monad. state_simpl.
      match goal with |- context [eng ?h0 ?c0] =>
        destruct (eng h0 c0) as [rs|e0] eqn:E end; cbv beta iota; state_simpl;
        intros Hcalls.
      * exfalso.
        apply (calls_returned_none_raised eng
                 [CSearch "INSIGHTS" (tag (recall_world_id request) (query request))]
                 (engine_calls st) h rest c e); cbn; eauto.
      * assert (e = e0) as ->
          by (apply (raise_point_unique eng (engine_calls st) [] h rest
                       (CSearch "INSIGHTS" (tag (recall_world_id request) (query request)))
                       c);
              cbn; rewrite ?app_nil_r; auto).
        split; [reflexivity|]. unfold logged_failure. state_simpl.
        eexists. now rewrite <- app_assoc.
    + exfalso. unfold recall in Hcalls. rewrite Hready in Hcalls.
      cbn in Hcalls. eauto.
Qed.

Lemma down_engine_raised_in_remember :
  raised_in_call down_engine ready_state
    (remember down_engine 100 two_facts ready_state).2 boom.
Proof.
  exists [CPrune true], (CAdd "[WORLD:w1] A"), [].
  repeat split. vm_compute. lia.
Qed.

Lemma down_engine_raised_in_recall :
  raised_in_call down_engine ready_state (recall down_engine a_query ready_state).2 boom.
Proof.
  exists [CPrune true], (CSearch "INSIGHTS" "[WORLD:w1] A"), [].
  repeat split. vm_compute. lia.
Qed.

Lemma engine_error_detail_witness :
  ((remember down_engine 100 two_facts ready_state).1
   = HTTPException 500 ("Failed to store facts: " +:+ exc_str boom) /\
   logged_failure (remember_world_id two_facts) "Error storing facts: " boom
     (remember down_engine 100 two_facts ready_state).2) /\
  ((recall down_engine a_query ready_state).1
   = HTTPException 500 ("Failed to query facts: " +:+ exc_str boom) /\
   logged_failure (recall_world_id a_query) "Error querying facts: " boom
     (recall down_engine a_query ready_state).2).
Proof.
  split.
  - exact (proj1 (engine_error_detail down_engine ready_state boom)
             100 two_facts down_engine_raised_in_remember).
  - exact (proj2 (engine_error_detail down_engine ready_state boom)
             a_query down_engine_raised_in_recall).
Defined.

(** ** remember when the engine raises *)

(** C10: whatever the engine and the state, if a call that remember made on
    the engine (an add, or the cognify) raised, the cache of facts and the
    watermark are after the call what they were before it. *)
Theorem remember_engine_failure_atomic
    (eng : Engine) (now : Z) (request : RememberRequest) (st : State) :
  raised_between eng st (remember eng now request st).2 ->
  world_memories (remember eng now request st).2 = world_memories st /\
  last_cognify_time (remember eng now request st).2 = last_cognify_time st.
Proof.
  intros (h & c & rest & e & Hcalls & Hlen & Hraised).
  destruct (cognee_initialized st) eqn:Hready.
  - pose proof (remember_outcome eng now request st Hready) as Ho.
    destruct (remember eng now request st) as [[r|s d] st']; state_simpl.
    + destruct Ho as (cs & Hc & Hret). exfalso.
      apply (calls_returned_none_raised eng cs (engine_calls st) h rest c e Hret);
        [congruence | exact Hlen | exact Hraised].
    + tauto.
  - unfold remember. rewrite Hready. cbn. auto.
Qed.

Lemma cognify_fails_raised :
  raised_between cognify_fails ready_state
    (remember cognify_fails 100 two_facts ready_state).2.
Proof.
  exists [CPrune true; CAdd "[WORLD:w1] A"; CAdd "[WORLD:w1] B"], CCognify, [], boom.
  repeat split. vm_compute. lia.
Qed.

Lemma remember_engine_failure_atomic_witness :
  world_memories (remember cognify_fails 100 two_facts ready_state).2
  = world_memories ready_state /\
  last_cognify_time (remember cognify_fails 100 two_facts ready_state).2
  = last_cognify_time ready_state.
Proof.
  exact (remember_engine_failure_atomic cognify_fails 100 two_facts ready_state
           cognify_fails_raised).
Defined.

(** ** The initialisation flag *)

(** A startup during which the engine raises leaves the flag down. *)
Lemma startup_failure_degraded (eng : Engine) (st : State) (e : Exception) :
  eng (engine_calls st) (CPrune true) = Raised e ->
  cognee_initialized (startup_event eng st) = false.
Proof.
  intros H. unfold startup_event. unfold_monad. state_simpl.
  rewrite H. reflexivity.
Qed.

Lemma startup_success_ready (eng : Engine) (st : State) rs :
  eng (engine_calls st) (CPrune true) = Returned rs ->
  cognee_initialized (startup_event eng st) = true.
Proof.
  intros H. unfold startup_event. unfold_monad. state_simpl.
  rewrite H. reflexivity.
Qed.

(** C5: while the flag is down, remember, recall and clear_world answer
    HTTP 503 and leave the whole state as it is (no call on the engine, the
    watermark and the cache untouched), and health_check answers with the
    status [unhealthy]. *)
Theorem degraded_gating
    (eng : Engine) (now : Z) (now_iso : string) (rr : RememberRequest)
    (rc : RecallRequest) (world_id : string) (st : State) :
  cognee_initialized st = false ->
  remember eng now rr st
  = (HTTPException 503 "Cognee not initialized. Check service logs.", st) /\
  recall eng rc st
  = (HTTPException 503 "Cognee not initialized. Check service logs.", st) /\
  clear_world world_id st
  = (HTTPException 503 "Cognee not initialized. Check service logs.", st) /\
  health_check now_iso st
  = {| status := "unhealthy"; service := "cognee-memory-service";
       timestamp := now_iso; health_cognee_initialized := false |}.
Proof.
  intros Hdown. unfold remember, recall, clear_world, health_check.
  rewrite Hdown. repeat split.
Qed.

Lemma degraded_gating_witness :
  remember ok_engine 100 two_facts degraded_state
  = (HTTPException 503 "Cognee not initialized. Check service logs.", degraded_state) /\
  recall ok_engine a_query degraded_state
  = (HTTPException 503 "Cognee not initialized. Check service logs.", degraded_state) /\
  clear_world "w1" degraded_state
  = (HTTPException 503 "Cognee not initialized. Check service logs.", degraded_state) /\
  health_check "2024-01-01T00:00:00" degraded_state
  = {| status := "unhealthy"; service := "cognee-memory-service";
       timestamp := "2024-01-01T00:00:00"; health_cognee_initialized := false |}.
Proof.
  exact (degraded_gating ok_engine 100 "2024-01-01T00:00:00" two_facts a_query "w1"
           degraded_state eq_refl).
Defined.

(** ** clear_world *)

(** clear_world in the ready state, in full. *)
Lemma clear_world_ready (world_id : string) (st : State) :
  cognee_initialized st = true ->
  clear_world world_id st
  = (Ok (clear_world_response world_id),
     mkState true (last_cognify_time st) (delete world_id (world_memories st))
       (engine_calls st)
       (log st ++ clear_world_log world_id (world_memories st !! world_id))).
Proof.
  intros Hready. unfold clear_world. rewrite Hready. cbn [negb].
  unfold try_except, clear_world_body, clear_world_log, clear_world_response.
  unfold_monad. state_simpl.
  destruct (world_memories st !! world_id) as [cached|] eqn:E;
    cbv beta iota; unfold write_log, set_world_memories; state_simpl;
    rewrite Hready.
  - f_equal. f_equal. now rewrite <- !app_assoc.
  - f_equal. rewrite delete_id by exact E. f_equal. now rewrite <- !app_assoc.
Qed.

(** C7, as the claim states it, fails: clear_world answers the same response
    for a world that holds two facts and for a world never written, so no
    number of cleared facts can be read from what it returns. *)
Lemma clear_world_returns_no_count :
  ~ exists cleared_count : ClearWorldResponse -> nat,
      forall (st : State) (world_id : string) (r : ClearWorldResponse),
        cognee_initialized st = true ->
        (clear_world world_id st).1 = Ok r ->
        cleared_count r = length (default [] (world_memories st !! world_id)).
Proof.
  intros [cleared_count H].
  pose proof (H two_facts_cached "w1" (clear_world_response "w1") eq_refl eq_refl) as H2.
  pose proof (H ready_state "w1" (clear_world_response "w1") eq_refl eq_refl) as H0.
  vm_compute in H2, H0. congruence.
Qed.

(** C7 (amended): once the flag is up clear_world never errors and is
    idempotent: it removes the cache entry of the world if there is one and
    answers success with the message [Cleared memory cache for world <id>],
    the same for a world that was never written or is already cleared; the
    number of facts the entry held is written to the log and is no part of
    the response. *)
Theorem clear_world_idempotent (world_id : string) (st : State) :
  cognee_initialized st = true ->
  let out := clear_world world_id st in
  let again := clear_world world_id out.2 in
  out.1 = Ok (clear_world_response world_id) /\
  world_memories out.2 = delete world_id (world_memories st) /\
  log out.2 = log st ++ clear_world_log world_id (world_memories st !! world_id) /\
  again.1 = Ok (clear_world_response world_id) /\
  world_memories again.2 = world_memories out.2 /\
  log again.2 = log out.2 ++ clear_world_log world_id None.
Proof.
  intros Hready. cbv zeta.
  rewrite (clear_world_ready world_id st Hready). state_simpl.
  rewrite clear_world_ready by reflexivity. state_simpl.
  rewrite lookup_delete_eq, delete_delete_eq. repeat split.
Qed.

Lemma clear_world_idempotent_witness :
  let out := clear_world "w1" two_facts_cached in
  let again := clear_world "w1" out.2 in
  out.1 = Ok (clear_world_response "w1") /\
  world_memories out.2 = delete "w1" (world_memories two_facts_cached) /\
  log out.2
  = log two_facts_cached ++ clear_world_log "w1" (world_memories two_facts_cached !! "w1") /\
  again.1 = Ok (clear_world_response "w1") /\
  world_memories again.2 = world_memories out.2 /\
  log again.2 = log out.2 ++ clear_world_log "w1" None.
Proof. exact (clear_world_idempotent "w1" two_facts_cached eq_refl). Defined.

(** C8: a clear_world call in the ready state makes no call on the engine and
    changes, of the globals, the cache entry of its world only: the entries of
    the other worlds, the watermark and the flag are what they were. *)
Theorem clear_world_frame (world_id : string) (st : State) :
  cognee_initialized st = true ->
  let st' := (clear_world world_id st).2 in
  engine_calls st' = engine_calls st /\
  (forall other : string, other <> world_id ->
     world_memories st' !! other = world_memories st !! other) /\
  world_memories st' !! world_id = None /\
  last_cognify_time st' = last_cognify_time st /\
  cognee_initialized st' = cognee_initialized st.
Proof.
  intros Hready. cbv zeta.
  rewrite (clear_world_ready world_id st Hready). state_simpl.
  repeat split.
  - intros other Hother. now apply lookup_delete_ne.
  - apply lookup_delete_eq.
  - now rewrite Hready.
Qed.

Lemma clear_world_frame_witness :
  let st' := (clear_world "w1" two_facts_cached).2 in
  engine_calls st' = engine_calls two_facts_cached /\
  (forall other : string, other <> "w1" ->
     world_memories st' !! other = world_memories two_facts_cached !! other) /\
  world_memories st' !! "w1" = None /\
  last_cognify_time st' = last_cognify_time two_facts_cached /\
  cognee_initialized st' = cognee_initialized two_facts_cached.
Proof. exact (clear_world_frame "w1" two_facts_cached eq_refl). Defined.

(** ** Requests in flight together *)

Section Coroutine.

Variable eng : Engine.
Variable t : Task.

Lemma run_alone_done (fuel : nat) (res : result RememberResponse) (st : State) :
  run_alone eng t fuel (Done res) st = (Done res, st).
Proof. induction fuel as [|k IH]; [reflexivity | exact IH]. Qed.

(** From the debounce test on, the stretches do what the [try] block does. *)
Lemma run_alone_debounce (st : State) :
  (let '(p, st1) := remember_debounce eng t st in run_alone eng t 1 p st1)
  = settle t (remember_after_adds eng (task_now t) (task_request t) st).
Proof.
  unfold remember_debounce, remember_after_adds, settle. unfold_monad.
  destruct (cognify_due (task_now t) (last_cognify_time st)); cbv beta iota.
  - cbn [run_alone step]. unfold write_log at 2. state_simpl.
    destruct (eng (engine_calls st) CCognify) as [rs|e]; reflexivity.
  - reflexivity.
Qed.

(** The loop over the facts, stretch by stretch, does what the loop does. *)
Lemma run_alone_adds (xs : list string) (st : State) :
  (let '(p, st1) := remember_adds eng t xs st in
   run_alone eng t (length xs + 1) p st1)
  = settle t ((for_each xs (add_fact eng) ;;
             remember_after_adds eng (task_now t) (task_request t)) st).
Proof.
  revert st. induction xs as [|x xs IH]; intros st.
  - cbn [remember_adds length Nat.add for_each]. rewrite run_alone_debounce.
    reflexivity.
  - cbn [remember_adds length Nat.add for_each].
    unfold bind at 1. unfold bind at 1. unfold add_fact at 1.
    unfold bind at 1. unfold await, ret.
    cbn [run_alone step].
    destruct (eng (engine_calls st) (CAdd x)) as [rs|e].
    + specialize (IH (record_call (CAdd x) st)).
      destruct (remember_adds eng t xs (record_call (CAdd x) st)) as [p st1].
      rewrite IH. reflexivity.
    + cbn [remember_except]. unfold remember_except.
      rewrite run_alone_done. reflexivity.
Qed.

(** A request that runs with nothing else in flight is the handler. *)
Lemma run_alone_remember (st : State) :
  run_alone eng t (length (facts (task_request t)) + 2) Start st
  = (let '(res, st') := remember eng (task_now t) (task_request t) st in
     (Done res, st')).
Proof.
  replace (length (facts (task_request t)) + 2)%nat
    with (S (length (tagged_facts (task_request t)) + 1))
    by (unfold tagged_facts; rewrite length_map; lia).
  cbn [run_alone step]. unfold remember.
  destruct (cognee_initialized st); cbn [negb].
  - pose proof (run_alone_adds (tagged_facts (task_request t))
      (write_log INFO ("[" +:+ remember_world_id (task_request t) +:+ "] Remembering "
                       +:+ pretty (length (facts (task_request t))) +:+ " fact(s)") st))
      as H.
    destruct (remember_adds eng t (tagged_facts (task_request t)) _) as [p st1].
    rewrite H. unfold try_except, remember_body, settle.
    unfold bind at 2. unfold logger_info, modify. cbv beta iota.
    match goal with |- context [bind ?m ?k ?s] => destruct (bind m k s) as [[r|e] st2] end;
      reflexivity.
  - rewrite run_alone_done. reflexivity.
Qed.

End Coroutine.

(** C6 (on the code): two remember requests in flight together, whose clock
    readings 1000 and 1001 lie within one window of 30, both find the rebuild
    due and both ask the engine for it.  The watermark is tested before
    [await cognee.cognify()] and set after it, so the second request, resumed
    while the first is suspended in that await, still reads the old watermark.
    Run one after the other, the same two requests ask for one rebuild. *)
Theorem overlapping_requests_rebuild_twice :
  let both := run_schedule ok_engine [first_task; second_task] overlapping ready_state in
  let in_turn := run_schedule ok_engine [first_task; second_task] one_after_the_other
                   ready_state in
  Z.abs (task_now second_task - task_now first_task) < 30 /\
  both.1 = [Done (Ok (remember_response two_facts));
            Done (Ok (remember_response one_fact))] /\
  cognify_count both.2 = (cognify_count ready_state + 2)%nat /\
  in_turn.1 = both.1 /\
  cognify_count in_turn.2 = (cognify_count ready_state + 1)%nat.
Proof. cbv zeta. repeat split. Qed.

(** * Further properties *)

(** ** The world tag *)

Lemma untag_absent (world_id text : string) :
  PyStr.contains (world_tag world_id) text = false ->
  untag world_id text = text.
Proof.
  intros H. unfold untag, world_tag in *.
  change ("[WORLD:" +:+ world_id +:+ "] ")
    with (String "[" ("WORLD:" +:+ world_id +:+ "] ")) in *.
  unfold PyStr.replace. now apply replace_go_absent.
Qed.

(** X1: A text in which the marker of the world does not occur is left as it is:
    a missing marker is no error. *)
Theorem untag_without_marker (world_id text : string) :
  PyStr.contains (world_tag world_id) text = false ->
  untag world_id text = text.
Proof. apply untag_absent. Qed.

Lemma untag_without_marker_witness :
  untag "w1" "diamonds at X" = "diamonds at X".
Proof. exact (untag_without_marker "w1" "diamonds at X" eq_refl). Defined.

(** X2: A fact in which the marker of its world does not occur comes back from
    tagging and untagging as it was, whatever the world id. *)
Theorem tagged_fact_round_trip (world_id fact : string) :
  PyStr.contains (world_tag world_id) fact = false ->
  untag world_id (tag world_id fact) = fact.
Proof. apply untag_tag_marker_free. Qed.

Lemma tagged_fact_round_trip_witness :
  untag "w1" (tag "w1" "diamonds at X") = "diamonds at X".
Proof. exact (tagged_fact_round_trip "w1" "diamonds at X" eq_refl). Defined.

Lemma tag_body_inj (w1 w2 f1 f2 : string) :
  delimiter_free w1 = true -> delimiter_free w2 = true ->
  (w1 +:+ "] ") +:+ f1 = (w2 +:+ "] ") +:+ f2 -> w1 = w2 /\ f1 = f2.
Proof.
  revert w2. induction w1 as [|c1 w1 IH]; intros [|c2 w2] H1 H2 H;
    cbn in H, H1, H2.
  - injection H as H. now split.
  - injection H as <- _. discriminate.
  - injection H as -> _. discriminate.
  - injection H as -> H.
    apply andb_prop in H1 as [_ H1]. apply andb_prop in H2 as [_ H2].
    destruct (IH w2 H1 H2 H) as [-> ->]. now split.
Qed.

(** X3: Tagged texts do not collide: for world ids free of the delimiter
    characters, a tagged text determines its world and its fact. *)
Theorem tag_inj (w1 w2 f1 f2 : string) :
  delimiter_free w1 = true -> delimiter_free w2 = true ->
  tag w1 f1 = tag w2 f2 -> w1 = w2 /\ f1 = f2.
Proof.
  intros H1 H2 H. unfold tag, world_tag in H. cbn in H.
  injection H as H. now apply tag_body_inj.
Qed.

Lemma tag_inj_witness : "w1" = "w1" /\ "A" = "A".
Proof. exact (tag_inj "w1" "w1" "A" "A" eq_refl eq_refl eq_refl). Defined.

(** ** remember: the calls it makes and what it leaves *)

Section RememberAny.

Variable eng : Engine.

(** The loop sends the facts in order and stops where it is when an add
    raises. *)
Lemma for_each_add_prefix (xs : list string) (st : State) r st' :
  for_each xs (add_fact eng) st = (r, st') ->
  exists k, engine_calls st' = engine_calls st ++ map CAdd (take k xs).
Proof.
  revert st. induction xs as [|x xs IH]; intros st; cbn [for_each].
  - unfold ret. intros [= <- <-]. exists 0%nat. cbn. now rewrite app_nil_r.
  - unfold bind at 1. unfold add_fact at 1. unfold bind, ret, await.
    destruct (eng (engine_calls st) (CAdd x)) as [rs|e].
    + intros H. apply IH in H as [k H]. exists (S k).
      rewrite H. state_simpl. cbn [take map]. now rewrite <- app_assoc.
    + intros [= <- <-]. exists 1%nat. state_simpl. now destruct xs.
Qed.

(** The loop when the add of the fact at position [k] is the first to raise. *)
Lemma for_each_add_stops (xs : list string) (st : State) (k : nat) (x : string)
    (e : Exception) :
  xs !! k = Some x ->
  calls_returned eng (engine_calls st) (map CAdd (take k xs)) ->
  eng (engine_calls st ++ map CAdd (take k xs)) (CAdd x) = Raised e ->
  for_each xs (add_fact eng) st = (inr e, record_calls (map CAdd (take (S k) xs)) st).
Proof.
  revert st k. induction xs as [|y xs IH]; intros st k Hk Hret Hraise.
  - discriminate.
  - cbn [for_each]. unfold bind at 1. unfold add_fact at 1. unfold bind, ret, await.
    destruct k as [|k].
    + injection Hk as ->. cbn in Hraise. rewrite app_nil_r in Hraise.
      rewrite Hraise. unfold record_call, record_calls. now destruct xs.
    + cbn in Hk. cbn [take map calls_returned] in Hret, Hraise.
      destruct Hret as [[rs ->] Hret].
      rewrite (IH (record_call (CAdd y) st) k Hk).
      * unfold record_calls, record_call. state_simpl.
        cbn [take map]. now rewrite <- app_assoc.
      * exact Hret.
      * state_simpl. now rewrite <- app_assoc.
Qed.

(** One remember call, whatever the engine and the state. *)
Lemma remember_any (now : Z) (request : RememberRequest) (st : State) :
  let st' := (remember eng now request st).2 in
  cognee_initialized st' = cognee_initialized st /\
  (exists (k : nat) (b : bool),
     engine_calls st'
     = engine_calls st ++ map CAdd (take k (tagged_facts request))
       ++ (if b then [CCognify] else []) /\
     (b = true -> k = length (facts request) /\
                  cognify_due now (last_cognify_time st) = true)) /\
  (last_cognify_time st' = last_cognify_time st \/
   last_cognify_time st' = now /\ cognify_due now (last_cognify_time st) = true) /\
  (world_memories st' = world_memories st \/
   world_memories st'
   = cache_facts (remember_world_id request) (facts request) (world_memories st)) /\
  exists l, log st' = log st ++ l.
Proof.
  cbv zeta. destruct (remember eng now request st) as [res st'] eqn:Hout.
  cbn [snd]. unfold remember in Hout.
  destruct (cognee_initialized st) eqn:Hready; cbn [negb] in Hout.
  2:{ unfold not_initialized in Hout. injection Hout as <- <-.
      split; [congruence|]. split; [|split; [|split]]; auto.
      - exists 0%nat, false. cbn. rewrite app_nil_r. split; [reflexivity | discriminate].
      - exists []. now rewrite app_nil_r. }
  unfold try_except, remember_body in Hout.
  unfold bind at 1 in Hout. unfold logger_info at 1 in Hout.
  unfold modify at 1 in Hout. unfold bind at 1 in Hout.
  match type of Hout with context [for_each ?xs ?f ?s] =>
    destruct (for_each xs f s) as [[[]|e] st1] eqn:E end;
    pose proof (for_each_add_prefix _ _ _ _ E) as [k Ek];
    apply for_each_add_frame in E; state_simpl;
    destruct E as (Ef & El & Em & Elog & E).
  - destruct E as [Ec _].
    unfold remember_after_adds in Hout. unfold_monad. rewrite El in Hout.
    destruct (cognify_due now (last_cognify_time st)); cbv beta iota in Hout;
      state_simpl.
    + destruct (eng (engine_calls st1) CCognify) as [rs|e] eqn:Ecog;
        cbv beta iota in Hout; injection Hout as <- <-;
        state_simpl; rewrite ?Ef, ?El, ?Em, ?Elog, ?Ec;
        (split; [congruence|]; split; [|split; [|split]];
         [ exists (length (tagged_facts request)), true;
           rewrite firstn_all, <- app_assoc; split; [reflexivity|];
           intros _; unfold tagged_facts; now rewrite length_map
         | auto
         | auto
         | eexists; rewrite <- ?app_assoc; reflexivity ]).
    + injection Hout as <- <-. state_simpl. rewrite ?Ef, ?El, ?Em, ?Elog, ?Ec.
      split; [congruence|]. split; [|split; [|split]].
      * exists (length (tagged_facts request)), false.
        rewrite firstn_all, app_nil_r. split; [reflexivity | discriminate].
      * auto.
      * auto.
      * eexists. rewrite <- ?app_assoc. reflexivity.
  - injection Hout as <- <-. state_simpl. rewrite ?Ef, ?El, ?Em, ?Elog, ?Ek.
    split; [congruence|]. split; [|split; [|split]].
    + exists k, false. rewrite app_nil_r. split; [reflexivity | discriminate].
    + auto.
    + auto.
    + eexists. rewrite <- ?app_assoc. reflexivity.
Qed.

End RememberAny.

(** X5: Whatever the engine answers, a remember call asks it for nothing but the
    adds of its tagged facts, in their order, and then at most one cognify;
    a cognify is sent only after every fact was added and only when the
    debounce test holds. *)
Theorem remember_calls_in_order
    (eng : Engine) (now : Z) (request : RememberRequest) (st : State) :
  let st' := (remember eng now request st).2 in
  (exists (k : nat) (b : bool),
     engine_calls st'
     = engine_calls st ++ map CAdd (take k (tagged_facts request))
       ++ (if b then [CCognify] else []) /\
     (b = true -> k = length (facts request) /\ 30 < now - last_cognify_time st)) /\
  (cognify_count st' <= cognify_count st + 1)%nat.
Proof.
  cbv zeta.
  destruct (remember_any eng now request st) as (_ & (k & b & Hc & Hb) & _).
  split.
  - exists k, b. split; [exact Hc|]. intros Hbt. destruct (Hb Hbt) as [Hk Hdue].
    split; [exact Hk | now apply cognify_due_gt].
  - rewrite app_assoc in Hc.
    apply cognify_count_calls in Hc. destruct b; lia.
Qed.

(** X6: Whatever the engine answers, a remember call leaves the flag and the
    cached facts of every other world as they are; the facts of its own world
    are those of before or those with the new facts after them; the watermark
    stays or, when the debounce test holds, becomes [now]; and the log only
    grows. *)
Theorem remember_frame
    (eng : Engine) (now : Z) (request : RememberRequest) (st : State) :
  let st' := (remember eng now request st).2 in
  let w := remember_world_id request in
  cognee_initialized st' = cognee_initialized st /\
  (forall other : string, other <> w ->
     world_memories st' !! other = world_memories st !! other) /\
  (world_memories st' !! w = world_memories st !! w \/
   world_memories st' !! w
   = Some (default [] (world_memories st !! w) ++ facts request)) /\
  (last_cognify_time st' = last_cognify_time st \/
   last_cognify_time st' = now /\ 30 < now - last_cognify_time st) /\
  exists l, log st' = log st ++ l.
Proof.
  cbv zeta.
  destruct (remember_any eng now request st) as (Hf & _ & Hl & Hm & Hlog).
  split; [exact Hf|]. split; [|split; [|split]].
  - intros other Hother. destruct Hm as [-> | ->]; [reflexivity|].
    unfold cache_facts. now rewrite lookup_insert_ne.
  - destruct Hm as [-> | ->]; [now left | right].
    unfold cache_facts. now rewrite lookup_insert_eq.
  - destruct Hl as [-> | [-> Hdue]]; [now left | right].
    split; [reflexivity | now apply cognify_due_gt].
  - exact Hlog.
Qed.

(** X7: A remember call in the ready state on an engine that raises neither on
    an add nor on a cognify answers success with the number of facts of the
    request, and the facts are cached after those the world already had, in
    their order. *)
Theorem remember_accepts_facts
    (eng : Engine) (now : Z) (request : RememberRequest) (st : State) :
  cognee_initialized st = true ->
  add_never_raises eng -> cognify_never_raises eng ->
  let out := remember eng now request st in
  let w := remember_world_id request in
  out.1 = Ok (remember_response request) /\
  facts_stored (remember_response request) = length (facts request) /\
  world_memories out.2 !! w
  = Some (default [] (world_memories st !! w) ++ facts request).
Proof.
  intros Hready Hadd Hcog. cbv zeta.
  pose proof (remember_ready_outcome eng Hadd now request st Hready) as Ho.
  cbv zeta in Ho.
  destruct (Hcog (engine_calls st ++ map CAdd (tagged_facts request))) as [rs Hrs].
  rewrite Hrs in Ho.
  assert (H : (remember eng now request st).1 = Ok (remember_response request) /\
              world_memories (remember eng now request st).2
              = cache_facts (remember_world_id request) (facts request)
                  (world_memories st))
    by (destruct (cognify_due now (last_cognify_time st)); exact Ho).
  destruct H as [H1 H2]. split; [exact H1|]. split; [reflexivity|].
  rewrite H2. unfold cache_facts. now rewrite lookup_insert_eq.
Qed.

Lemma remember_accepts_facts_witness :
  let out := remember ok_engine 100 two_facts ready_state in
  out.1 = Ok (remember_response two_facts) /\
  facts_stored (remember_response two_facts) = length (facts two_facts) /\
  world_memories out.2 !! "w1"
  = Some (default [] (world_memories ready_state !! "w1") ++ facts two_facts).
Proof.
  exact (remember_accepts_facts ok_engine 100 two_facts ready_state eq_refl
           ok_engine_add ok_engine_cognify).
Defined.

(** remember when the add of the fact at position [k] is the first call to
    raise, in full. *)
Lemma remember_add_raises
    (eng : Engine) (now : Z) (request : RememberRequest) (st : State)
    (k : nat) (x : string) (e : Exception) :
  cognee_initialized st = true ->
  tagged_facts request !! k = Some x ->
  calls_returned eng (engine_calls st) (map CAdd (take k (tagged_facts request))) ->
  eng (engine_calls st ++ map CAdd (take k (tagged_facts request))) (CAdd x) = Raised e ->
  remember eng now request st
  = (HTTPException 500 ("Failed to store facts: " +:+ exc_str e),
     write_log ERROR (exc_traceback e)
       (write_log ERROR ("[" +:+ remember_world_id request +:+ "] ✗ "
                         +:+ "Error storing facts: " +:+ exc_str e)
          (record_calls (map CAdd (take (S k) (tagged_facts request)))
             (write_log INFO ("[" +:+ remember_world_id request +:+ "] Remembering "
                +:+ pretty (length (facts request)) +:+ " fact(s)") st)))).
Proof.
  intros Hready Hk Hret Hraise. unfold remember. rewrite Hready. cbn [negb].
  unfold try_except, remember_body.
  unfold bind at 1. unfold logger_info at 1. unfold modify at 1.
  unfold bind at 1.
  match goal with |- context [for_each ?xs ?f ?s] =>
    rewrite (for_each_add_stops eng xs s k x e Hk Hret Hraise) end.
  reflexivity.
Qed.

(** X8: When an add raises, remember stops there: the facts up to the failing
    one were sent to the engine, the later ones and the cognify were not, the
    call answers HTTP 500 with the text of the exception, and neither the
    cache nor the watermark changed. *)
Theorem remember_stops_at_failed_add
    (eng : Engine) (now : Z) (request : RememberRequest) (st : State)
    (k : nat) (x : string) (e : Exception) :
  cognee_initialized st = true ->
  tagged_facts request !! k = Some x ->
  calls_returned eng (engine_calls st) (map CAdd (take k (tagged_facts request))) ->
  eng (engine_calls st ++ map CAdd (take k (tagged_facts request))) (CAdd x) = Raised e ->
  let out := remember eng now request st in
  out.1 = HTTPException 500 ("Failed to store facts: " +:+ exc_str e) /\
  engine_calls out.2
  = engine_calls st ++ map CAdd (take (S k) (tagged_facts request)) /\
  cognify_count out.2 = cognify_count st /\
  world_memories out.2 = world_memories st /\
  last_cognify_time out.2 = last_cognify_time st.
Proof.
  intros Hready Hk Hret Hraise. cbv zeta.
  rewrite (remember_add_raises eng now request st k x e Hready Hk Hret Hraise).
  state_simpl. repeat split.
  unfold cognify_count. state_simpl.
  rewrite List.filter_app, length_app, filter_cognify_adds. cbn. lia.
Qed.

Lemma remember_stops_at_failed_add_witness :
  let out := remember second_add_fails 100 two_facts ready_state in
  out.1 = HTTPException 500 ("Failed to store facts: " +:+ exc_str boom) /\
  engine_calls out.2
  = engine_calls ready_state ++ map CAdd (take 2 (tagged_facts two_facts)) /\
  cognify_count out.2 = cognify_count ready_state /\
  world_memories out.2 = world_memories ready_state /\
  last_cognify_time out.2 = last_cognify_time ready_state.
Proof.
  apply (remember_stops_at_failed_add second_add_fails 100 two_facts ready_state
           1 "[WORLD:w1] B" boom eq_refl eq_refl).
  - cbn. split; [now exists []| exact I].
  - reflexivity.
Defined.

(** ** recall *)

Section Recall.

Variable eng : Engine.

Lemma recall_returned (request : RecallRequest) (st : State) (raw : list raw_result) :
  cognee_initialized st = true ->
  eng (engine_calls st) (recall_search request) = Returned raw ->
  let rs := recall_results request raw in
  recall eng request st
  = (Ok {| recall_success := true;
           recall_response_world_id := recall_world_id request;
           recall_response_query := query request;
           results := rs;
           count := length rs |},
     write_log INFO ("[" +:+ recall_world_id request +:+ "] ✓ Found "
                     +:+ pretty (length rs) +:+ " result(s)")
       (record_call (recall_search request)
          (write_log INFO ("[" +:+ recall_world_id request +:+ "] Querying: '"
                           +:+ query request +:+ "'") st))).
Proof.
  intros Hready Hreply. cbv zeta. unfold recall. rewrite Hready. cbn [negb].
  unfold try_except, recall_body. unfold_monad. state_simpl.
  unfold recall_search in Hreply. rewrite Hreply. reflexivity.
Qed.

Lemma recall_raised (request : RecallRequest) (st : State) (e : Exception) :
  cognee_initialized st = true ->
  eng (engine_calls st) (recall_search request) = Raised e ->
  recall eng request st
  = (HTTPException 500 ("Failed to query facts: " +:+ exc_str e),
     write_log ERROR (exc_traceback e)
       (write_log ERROR ("[" +:+ recall_world_id request +:+ "] ✗ "
                         +:+ "Error querying facts: " +:+ exc_str e)
          (record_call (recall_search request)
             (write_log INFO ("[" +:+ recall_world_id request +:+ "] Querying: '"
                              +:+ query request +:+ "'") st)))).
Proof.
  intros Hready Hreply. unfold recall. rewrite Hready. cbn [negb].
  unfold try_except, recall_body. unfold_monad. state_simpl.
  unfold recall_search in Hreply. rewrite Hreply. reflexivity.
Qed.

End Recall.

(** X10: A recall call never touches the flag, the watermark or the cached
    facts, and it does not consult the cache either: what it answers is the
    same whatever the cache, the watermark and the log hold.  In the ready
    state it makes exactly one call on the engine, a search of type INSIGHTS
    for the query tagged with the world. *)
Theorem recall_frame (eng : Engine) (request : RecallRequest) (st : State) :
  let st' := (recall eng request st).2 in
  cognee_initialized st' = cognee_initialized st /\
  last_cognify_time st' = last_cognify_time st /\
  world_memories st' = world_memories st /\
  engine_calls st'
  = engine_calls st ++
    (if cognee_initialized st
     then [CSearch "INSIGHTS" (tag (recall_world_id request) (query request))]
     else []) /\
  forall (t : Z) (m : gmap string (list string)) (l : list (level * string)),
    (recall eng request (mkState (cognee_initialized st) t m (engine_calls st) l)).1
    = (recall eng request st).1.
Proof.
  cbv zeta. destruct (cognee_initialized st) eqn:Hready.
  - destruct (eng (engine_calls st) (recall_search request)) as [raw|e] eqn:E.
    + rewrite (recall_returned eng request st raw Hready E). state_simpl.
      rewrite Hready. repeat split. intros t m l.
      now rewrite (recall_returned eng request (mkState true t m (engine_calls st) l)
                     raw eq_refl E).
    + rewrite (recall_raised eng request st e Hready E). state_simpl.
      rewrite Hready. repeat split. intros t m l.
      now rewrite (recall_raised eng request (mkState true t m (engine_calls st) l)
                     e eq_refl E).
  - unfold recall. rewrite Hready. cbn. rewrite app_nil_r, Hready.
    repeat split.
Qed.

(** X11: A recall call that answers returns at most [limit] results, and [count]
    is their number; for a request that passed validation that is at most
    20. *)
Theorem recall_count_bound
    (eng : Engine) (request : RecallRequest) (st : State) (r : RecallResponse) :
  (recall eng request st).1 = Ok r ->
  count r = length (results r) /\
  (count r <= limit request)%nat /\
  (valid_recall_request request = true -> (count r <= 20)%nat).
Proof.
  intros H. unfold recall in H.
  destruct (cognee_initialized st) eqn:Hready; cbn [negb] in H; [|discriminate].
  fold (recall eng request st) in H.
  assert (Hr : exists raw, r = {| recall_success := true;
                 recall_response_world_id := recall_world_id request;
                 recall_response_query := query request;
                 results := recall_results request raw;
                 count := length (recall_results request raw) |}).
  { unfold try_except, recall_body in H. unfold_monad. state_simpl.
    match type of H with context [eng ?h ?c] =>
      destruct (eng h c) as [raw|e] end; cbv beta iota in H; cbn [fst] in H.
    - injection H as <-. now exists raw.
    - discriminate. }
  destruct Hr as [raw ->]. cbn [count results].
  assert (Hlen : (length (recall_results request raw) <= limit request)%nat).
  { unfold recall_results. rewrite length_map, length_take. lia. }
  split; [reflexivity|]. split; [exact Hlen|].
  intros Hv. unfold valid_recall_request in Hv.
  apply andb_prop in Hv as [_ Hv]. apply Nat.leb_le in Hv. lia.
Qed.

Lemma recall_count_bound_witness :
  count {| recall_success := true; recall_response_world_id := "w1";
           recall_response_query := "A"; results := ["A"; "B"]; count := 2 |}
  = length ["A"; "B"] /\
  (2 <= limit two_at_most)%nat /\
  (valid_recall_request two_at_most = true -> (2 <= 20)%nat).
Proof.
  exact (recall_count_bound finds_three two_at_most ready_state
           {| recall_success := true; recall_response_world_id := "w1";
              recall_response_query := "A"; results := ["A"; "B"]; count := 2 |}
           eq_refl).
Defined.

Lemma untag_tag_all (world_id : string) (fs : list string) :
  Forall (fun f => PyStr.contains (world_tag world_id) f = false) fs ->
  map (fun f => untag world_id (tag world_id f)) fs = fs.
Proof.
  induction 1 as [|f fs Hf _ IH]; cbn [map].
  - reflexivity.
  - now rewrite IH, untag_tag_marker_free.
Qed.

(** X12: When the engine finds texts that are facts tagged for the world of the
    query, none of the facts containing the marker, recall answers the facts
    themselves, the tag stripped, as many as [limit] allows and in the order
    of the engine, whatever the shape of the items found. *)
Theorem recall_strips_tags
    (eng : Engine) (request : RecallRequest) (st : State)
    (raw : list raw_result) (fs : list string) :
  cognee_initialized st = true ->
  eng (engine_calls st)
      (CSearch "INSIGHTS" (tag (recall_world_id request) (query request)))
  = Returned raw ->
  map result_text raw = map (tag (recall_world_id request)) fs ->
  Forall (fun f => PyStr.contains (world_tag (recall_world_id request)) f = false) fs ->
  exists r,
    (recall eng request st).1 = Ok r /\
    results r = take (limit request) fs /\
    count r = Nat.min (limit request) (length fs).
Proof.
  intros Hready Hreply Htexts Hfree.
  rewrite (recall_returned eng request st raw Hready Hreply). cbn [fst].
  eexists. split; [reflexivity|]. cbn [results count].
  assert (Hres : recall_results request raw = take (limit request) fs).
  { unfold recall_results.
    rewrite <- (List.map_map result_text (untag (recall_world_id request))).
    rewrite <- firstn_map, Htexts, firstn_map, List.map_map.
    apply untag_tag_all. now apply Forall_take. }
  rewrite Hres. split; [reflexivity|]. apply length_take.
Qed.

Lemma recall_strips_tags_witness :
  exists r,
    (recall finds_three two_at_most ready_state).1 = Ok r /\
    results r = take 2 ["A"; "B"; "C"] /\
    count r = Nat.min 2 (length ["A"; "B"; "C"]).
Proof.
  apply (recall_strips_tags finds_three two_at_most ready_state
           [HasText "[WORLD:w1] A"; DictText "[WORLD:w1] B"; Other "[WORLD:w1] C"]
           ["A"; "B"; "C"] eq_refl eq_refl eq_refl).
  repeat constructor.
Defined.

(** ** Startup, health and root *)

(** X14: Startup makes one call on the engine, the pruning of the system data with
    its metadata, and raises the flag exactly when that call returns; the
    watermark and the cached facts are not touched. *)
Theorem startup_event_flag (eng : Engine) (st : State) :
  let st' := startup_event eng st in
  engine_calls st' = engine_calls st ++ [CPrune true] /\
  (cognee_initialized st' = true <->
   exists rs, eng (engine_calls st) (CPrune true) = Returned rs) /\
  last_cognify_time st' = last_cognify_time st /\
  world_memories st' = world_memories st.
Proof.
  cbv zeta. unfold startup_event. unfold_monad. state_simpl.
  destruct (eng (engine_calls st) (CPrune true)) as [rs|e];
    cbv beta iota; state_simpl.
  - repeat split. eauto.
  - repeat split; [discriminate | intros [rs H]; discriminate].
Qed.

(** X15: health_check and root agree with each other and with the flag: the
    service is [healthy] exactly when it is [running], that is exactly when
    the flag is up; otherwise it is [unhealthy] and [degraded]. *)
Theorem health_and_root_agree (now_iso : string) (st : State) :
  (status (health_check now_iso st) = "healthy" <-> cognee_initialized st = true) /\
  (root_status (root st) = "running" <-> cognee_initialized st = true) /\
  (status (health_check now_iso st) = "unhealthy" <-> cognee_initialized st = false) /\
  (root_status (root st) = "degraded" <-> cognee_initialized st = false) /\
  health_cognee_initialized (health_check now_iso st) = cognee_initialized st.
Proof.
  unfold health_check, root. cbn [status root_status health_cognee_initialized].
  destruct (cognee_initialized st); repeat split; try reflexivity; discriminate.
Qed.

(** X16: After startup the service reports [healthy] exactly when the engine let
    itself be pruned. *)
Theorem health_after_startup (eng : Engine) (now_iso : string) (st : State) :
  status (health_check now_iso (startup_event eng st)) = "healthy" <->
  exists rs, eng (engine_calls st) (CPrune true) = Returned rs.
Proof.
  unfold health_check. cbn [status].
  destruct (eng (engine_calls st) (CPrune true)) as [rs|e] eqn:E.
  - rewrite (startup_success_ready eng st rs E). split; eauto.
  - rewrite (startup_failure_degraded eng st e E).
    split; [discriminate | intros [rs H]; discriminate].
Qed.

(** ** remember and clear_world together *)



(** ** Requests served one after the other *)

Lemma remember_seq_in_window (eng : Engine) (rest : list (Z * RememberRequest))
    (st : State) :
  add_never_raises eng -> cognee_initialized st = true ->
  Forall (fun tr => tr.1 - last_cognify_time st <= 30) rest ->
  cognify_count (remember_seq eng rest st) = cognify_count st /\
  last_cognify_time (remember_seq eng rest st) = last_cognify_time st.
Proof.
  intros Hadd. revert st. induction rest as [|[t r] rest IH]; intros st Hready Hwin.
  - now split.
  - cbn [remember_seq]. inversion Hwin as [|? ? Ht Hrest]; subst. cbn [fst] in Ht.
    destruct (remember_ready_summary eng Hadd t r st Hready) as (Hr & Hc & Hl).
    apply cognify_due_le in Ht. rewrite Ht in Hc, Hl.
    apply (cognify_count_calls _ _ _ false) in Hc.
    destruct (IH (remember eng t r st).2 Hr) as [IHc IHl].
    + now rewrite Hl.
    + rewrite IHc, IHl. split; [lia | exact Hl].
Qed.

(** X19: Requests served one after the other on an engine that does not raise:
    when the first finds the rebuild due and the others come no later than 30
    after it, the whole run asks for exactly one rebuild, and the watermark
    is the clock reading of the first request. *)
Theorem one_rebuild_per_window
    (eng : Engine) (t1 : Z) (r1 : RememberRequest)
    (rest : list (Z * RememberRequest)) (st : State) :
  cognee_initialized st = true ->
  add_never_raises eng -> cognify_never_raises eng ->
  30 < t1 - last_cognify_time st ->
  Forall (fun tr => tr.1 - t1 <= 30) rest ->
  let st' := remember_seq eng ((t1, r1) :: rest) st in
  cognify_count st' = S (cognify_count st) /\ last_cognify_time st' = t1.
Proof.
  intros Hready Hadd Hcog Hdue Hwin. cbv zeta. cbn [remember_seq].
  destruct (remember_ready_summary eng Hadd t1 r1 st Hready) as (Hr & Hc & Hl).
  apply cognify_due_gt in Hdue. rewrite Hdue in Hc, Hl.
  destruct (Hcog (engine_calls st ++ map CAdd (tagged_facts r1))) as [rs Hrs].
  rewrite Hrs in Hl.
  apply (cognify_count_calls _ _ _ true) in Hc.
  destruct (remember_seq_in_window eng rest (remember eng t1 r1 st).2 Hadd Hr)
    as [Sc Sl].
  - now rewrite Hl.
  - rewrite Sc, Sl. split; [lia | exact Hl].
Qed.

Lemma one_rebuild_per_window_witness :
  let st' := remember_seq ok_engine
               [(100, two_facts); (105, one_fact); (130, two_facts)] ready_state in
  cognify_count st' = S (cognify_count ready_state) /\ last_cognify_time st' = 100.
Proof.
  apply (one_rebuild_per_window ok_engine 100 two_facts
           [(105, one_fact); (130, two_facts)] ready_state eq_refl
           ok_engine_add ok_engine_cognify eq_refl).
  repeat constructor; cbn; lia.
Defined.

(** ** The cache never holds an empty entry *)

Lemma recall_memories (eng : Engine) (request : RecallRequest) (st : State) :
  world_memories (recall eng request st).2 = world_memories st.
Proof.
  destruct (cognee_initialized st) eqn:Hready.
  - destruct (eng (engine_calls st) (recall_search request)) as [raw|e] eqn:E.
    + now rewrite (recall_returned eng request st raw Hready E).
    + now rewrite (recall_raised eng request st e Hready E).
  - unfold recall. now rewrite Hready.
Qed.

Lemma clear_world_memories (world_id : string) (st : State) :
  world_memories (clear_world world_id st).2
  = if cognee_initialized st then delete world_id (world_memories st)
    else world_memories st.
Proof.
  destruct (cognee_initialized st) eqn:Hready.
  - now rewrite (clear_world_ready world_id st Hready).
  - unfold clear_world. now rewrite Hready.
Qed.

Lemma startup_event_memories (eng : Engine) (st : State) :
  world_memories (startup_event eng st) = world_memories st.
Proof.
  unfold startup_event. unfold_monad. state_simpl.
  destruct (eng (engine_calls st) (CPrune true)); reflexivity.
Qed.

Lemma entries_nonempty_initial : entries_nonempty initial_state.
Proof. intros w cached H. cbn in H. now rewrite lookup_empty in H. Qed.

(** X21: No handler ever leaves a world cached with an empty list of facts: the
    property holds when the module is loaded and is kept by startup, by
    recall, by clear_world and, for a request that passed validation (at least
    one fact), by remember, whatever the engine answers. *)
Theorem entries_nonempty_kept (st : State) :
  entries_nonempty st ->
  (forall eng now request,
     valid_remember_request request = true ->
     entries_nonempty (remember eng now request st).2) /\
  (forall eng request, entries_nonempty (recall eng request st).2) /\
  (forall world_id, entries_nonempty (clear_world world_id st).2) /\
  (forall eng, entries_nonempty (startup_event eng st)).
Proof.
  intros Hinv. split; [|split; [|split]].
  - intros eng now request Hvalid w cached Hw.
    destruct (remember_any eng now request st) as (_ & _ & _ & Hm & _).
    destruct Hm as [Hm | Hm]; rewrite Hm in Hw; [now apply (Hinv w)|].
    unfold cache_facts in Hw.
    destruct (decide (remember_world_id request = w)) as [<- | Hne].
    + rewrite lookup_insert_eq in Hw. injection Hw as <-.
      unfold valid_remember_request in Hvalid.
      apply andb_prop in Hvalid as [_ Hfacts]. apply Nat.leb_le in Hfacts.
      intros Hnil. apply (f_equal (@length string)) in Hnil.
      rewrite length_app in Hnil. cbn in Hnil. lia.
    + rewrite lookup_insert_ne in Hw by exact Hne. now apply (Hinv w).
  - intros eng request w cached Hw. rewrite recall_memories in Hw.
    now apply (Hinv w).
  - intros world_id w cached Hw. rewrite clear_world_memories in Hw.
    destruct (cognee_initialized st); [|now apply (Hinv w)].
    apply lookup_delete_Some in Hw as [_ Hw]. now apply (Hinv w).
  - intros eng w cached Hw. rewrite startup_event_memories in Hw.
    now apply (Hinv w).
Qed.

Lemma two_facts_cached_nonempty : entries_nonempty two_facts_cached.
Proof.
  intros w cached Hw.
  assert (Hm : world_memories two_facts_cached = <["w1" := ["A"; "B"]]> ∅)
    by reflexivity.
  rewrite Hm in Hw. destruct (decide ("w1" = w)) as [<- | Hne].
  - rewrite lookup_insert_eq in Hw. injection Hw as <-. discriminate.
  - rewrite lookup_insert_ne, lookup_empty in Hw by exact Hne. discriminate.
Qed.

(** From the state in which [w1] holds two facts: a remember call that
    extends that entry, one that creates the entry of [w2], a recall, the
    clearing of [w1], and a startup. *)
Lemma entries_nonempty_kept_witness :
  world_memories (remember ok_engine 200 two_facts two_facts_cached).2 !! "w1"
  = Some ["A"; "B"; "A"; "B"] /\
  world_memories (remember ok_engine 200 one_fact two_facts_cached).2 !! "w2"
  = Some ["C"] /\
  entries_nonempty (remember ok_engine 200 two_facts two_facts_cached).2 /\
  entries_nonempty (remember ok_engine 200 one_fact two_facts_cached).2 /\
  entries_nonempty (recall finds_three two_at_most two_facts_cached).2 /\
  entries_nonempty (clear_world "w1" two_facts_cached).2 /\
  entries_nonempty (startup_event ok_engine two_facts_cached).
Proof.
  destruct (entries_nonempty_kept two_facts_cached two_facts_cached_nonempty)
    as (Hremember & Hrecall & Hclear & Hstartup).
  split; [reflexivity|]. split; [reflexivity|].
  split; [exact (Hremember ok_engine 200 two_facts eq_refl)|].
  split; [exact (Hremember ok_engine 200 one_fact eq_refl)|].
  split; [exact (Hrecall finds_three two_at_most)|].
  split; [exact (Hclear "w1") | exact (Hstartup ok_engine)].
Defined.

(** ** Requests in flight together: how many rebuilds *)

Section Schedules.

Variable eng : Engine.

Lemma cognify_count_log (l : level) (msg : string) (st : State) :
  cognify_count (write_log l msg st) = cognify_count st.
Proof. reflexivity. Qed.

Lemma cognify_count_add (text : string) (st : State) :
  cognify_count (record_call (CAdd text) st) = cognify_count st.
Proof.
  unfold cognify_count. state_simpl. rewrite List.filter_app, length_app. cbn. lia.
Qed.

Lemma cognify_count_cognify (st : State) :
  cognify_count (record_call CCognify st) = S (cognify_count st).
Proof.
  unfold cognify_count. state_simpl. rewrite List.filter_app, length_app. cbn. lia.
Qed.

Lemma debounce_cognify (t : Task) (st : State) p' st' :
  remember_debounce eng t st = (p', st') ->
  (cognify_count st' + before_debounce p' <= cognify_count st + 1)%nat.
Proof.
  unfold remember_debounce, remember_finish.
  destruct (cognify_due (task_now t) (last_cognify_time st)); intros [= <- <-].
  - rewrite cognify_count_cognify, cognify_count_log. cbn. lia.
  - cbn [before_debounce]. unfold cognify_count. state_simpl. lia.
Qed.

Lemma adds_cognify (t : Task) (pending : list string) (st : State) p' st' :
  remember_adds eng t pending st = (p', st') ->
  (cognify_count st' + before_debounce p' <= cognify_count st + 1)%nat.
Proof.
  destruct pending as [|fact rest]; cbn [remember_adds].
  - apply debounce_cognify.
  - intros [= <- <-]. rewrite cognify_count_add. cbn. lia.
Qed.

(** A stretch asks for a rebuild only in passing the debounce test, which a
    request passes once. *)
Lemma step_cognify (t : Task) (p : pc) (st : State) p' st' :
  step eng t p st = (p', st') ->
  (cognify_count st' + before_debounce p' <= cognify_count st + before_debounce p)%nat.
Proof.
  destruct p as [|[rs|e] rest|[rs|e]|res]; cbn [step before_debounce].
  - destruct (negb (cognee_initialized st)).
    + intros [= <- <-]. cbn. lia.
    + intros H. apply adds_cognify in H. now rewrite cognify_count_log in H.
  - apply adds_cognify.
  - unfold remember_except. intros [= <- <-]. cbn. unfold cognify_count.
    state_simpl. lia.
  - unfold remember_finish. intros [= <- <-]. cbn. unfold cognify_count.
    state_simpl. lia.
  - unfold remember_except. intros [= <- <-]. cbn. unfold cognify_count.
    state_simpl. lia.
  - intros [= <- <-]. cbn. lia.
Qed.

Lemma waiting_insert (pcs : list pc) (i : nat) (p p' : pc) :
  pcs !! i = Some p ->
  (waiting (<[i := p']> pcs) + before_debounce p
   = waiting pcs + before_debounce p')%nat.
Proof.
  unfold waiting. revert i. induction pcs as [|q pcs IH]; intros [|i] Hi;
    try discriminate; cbn in *.
  - injection Hi as ->. clear IH. lia.
  - specialize (IH i Hi). rewrite <- !Nat.add_assoc. f_equal. exact IH.
Qed.

Lemma resume_cognify (tasks : list Task) (i : nat) (cfg : list pc * State) :
  let cfg' := resume eng tasks i cfg in
  (cognify_count cfg'.2 + waiting cfg'.1 <= cognify_count cfg.2 + waiting cfg.1)%nat.
Proof.
  cbv zeta. unfold resume.
  destruct (tasks !! i) as [t|]; [|lia].
  destruct (cfg.1 !! i) as [p|] eqn:Hp; [|lia].
  destruct (step eng t p cfg.2) as [p' st'] eqn:Hstep. cbn [fst snd].
  apply step_cognify in Hstep.
  pose proof (waiting_insert cfg.1 i p p' Hp). lia.
Qed.

Lemma schedule_cognify (tasks : list Task) (schedule : list nat)
    (cfg : list pc * State) :
  let cfg' := fold_left (fun cfg i => resume eng tasks i cfg) schedule cfg in
  (cognify_count cfg'.2 + waiting cfg'.1 <= cognify_count cfg.2 + waiting cfg.1)%nat.
Proof.
  cbv zeta. revert cfg. induction schedule as [|i schedule IH]; intros cfg.
  - cbn. lia.
  - cbn [fold_left]. specialize (IH (resume eng tasks i cfg)).
    pose proof (resume_cognify tasks i cfg) as H. cbv zeta in H. lia.
Qed.

Lemma waiting_start (tasks : list Task) :
  waiting (map (fun _ => Start) tasks) = length tasks.
Proof.
  unfold waiting. induction tasks as [|t tasks IH]; cbn; [reflexivity | now rewrite IH].
Qed.

End Schedules.

(** X22: However the event loop interleaves the requests in flight and whatever
    the engine answers, the rebuilds asked for are at most one per request. *)
Theorem rebuilds_at_most_one_per_request
    (eng : Engine) (tasks : list Task) (schedule : list nat) (st : State) :
  (cognify_count (run_schedule eng tasks schedule st).2
   <= cognify_count st + length tasks)%nat.
Proof.
  unfold run_schedule.
  pose proof (schedule_cognify eng tasks schedule (map (fun _ => Start) tasks, st)) as H.
  cbv zeta in H. cbn [fst snd] in H. rewrite waiting_start in H. lia.
Qed.

(** ** Worlds side by side *)

Lemma prefix_not_bracket (t s : string) (c : ascii) :
  Ascii.eqb c "[" = false -> String.prefix (String "[" t) (String c s) = false.
Proof.
  intros Hc. cbn [String.prefix].
  destruct (ascii_dec "[" c) as [<-|]; [|reflexivity].
  now rewrite Ascii.eqb_refl in Hc.
Qed.

(** A marker starts nowhere in a stretch of text without opening bracket. *)
Lemma contains_skip_bracket_free (t s f : string) :
  bracket_free s = true ->
  PyStr.contains (String "[" t) (s +:+ f) = PyStr.contains (String "[" t) f.
Proof.
  induction s as [|c s IH]; intros Hs.
  - reflexivity.
  - cbn [bracket_free] in Hs. apply andb_prop in Hs as [Hc Hs].
    apply negb_true_iff in Hc.
    change (String c s +:+ f) with (String c (s +:+ f)).
    cbn [PyStr.contains]. rewrite (prefix_not_bracket _ _ _ Hc). cbn [orb].
    now apply IH.
Qed.

Lemma delimiter_free_bracket_free (w : string) :
  delimiter_free w = true -> bracket_free (w +:+ "] ") = true.
Proof.
  induction w as [|c w IH]; intros H.
  - reflexivity.
  - cbn [delimiter_free] in H. apply andb_prop in H as [Hc H].
    change (String c w +:+ "] ") with (String c (w +:+ "] ")).
    cbn [bracket_free]. rewrite (IH H), andb_true_r.
    unfold is_delimiter in Hc. apply negb_true_iff in Hc.
    apply negb_true_iff. now destruct (Ascii.eqb c "[").
Qed.

Lemma prefix_tag_body (w1 w2 f : string) :
  delimiter_free w1 = true -> delimiter_free w2 = true ->
  String.prefix (w2 +:+ "] ") ((w1 +:+ "] ") +:+ f) = true -> w1 = w2.
Proof.
  revert w1. induction w2 as [|c2 w2 IH]; intros [|c1 w1] H1 H2 H;
    cbn in H1, H2.
  - reflexivity.
  - change (String.prefix (String "]" " ") (String c1 ((w1 +:+ "] ") +:+ f)) = true)
      in H.
    cbn [String.prefix] in H.
    destruct (ascii_dec "]" c1) as [<-|]; discriminate.
  - change (String.prefix (String c2 (w2 +:+ "] ")) (String "]" (String " " f)) = true)
      in H.
    cbn [String.prefix] in H.
    destruct (ascii_dec c2 "]") as [->|]; discriminate.
  - change (String.prefix (String c2 (w2 +:+ "] "))
              (String c1 ((w1 +:+ "] ") +:+ f)) = true) in H.
    cbn [String.prefix] in H.
    destruct (ascii_dec c2 c1) as [->|]; [|discriminate].
    apply andb_prop in H1 as [_ H1]. apply andb_prop in H2 as [_ H2].
    now rewrite (IH w1 H1 H2 H).
Qed.

(** X4: Untagging for one world leaves a text tagged for another world as it is,
    tag included (world ids free of the delimiter characters, the fact not
    containing the marker looked for). *)
Theorem untag_other_world (w1 w2 fact : string) :
  delimiter_free w1 = true -> delimiter_free w2 = true -> w1 <> w2 ->
  PyStr.contains (world_tag w2) fact = false ->
  untag w2 (tag w1 fact) = tag w1 fact.
Proof.
  intros H1 H2 Hne Hfact. apply untag_absent.
  unfold tag, world_tag in *.
  change ("[WORLD:" +:+ w2 +:+ "] ") with (String "[" ("WORLD:" +:+ w2 +:+ "] ")) in *.
  change (("[WORLD:" +:+ w1 +:+ "] ") +:+ fact)
    with (String "[" (("WORLD:" +:+ w1 +:+ "] ") +:+ fact)).
  cbn [PyStr.contains]. apply orb_false_intro.
  - destruct (String.prefix _ _) eqn:Hp; [|reflexivity].
    cbn in Hp. exfalso. apply Hne. now apply (prefix_tag_body w1 w2 fact).
  - rewrite contains_skip_bracket_free; [exact Hfact|].
    cbn. now apply delimiter_free_bracket_free.
Qed.

Lemma untag_other_world_witness :
  untag "w2" (tag "w1" "diamonds at X") = tag "w1" "diamonds at X".
Proof.
  apply (untag_other_world "w1" "w2" "diamonds at X" eq_refl eq_refl);
    [discriminate | reflexivity].
Defined.

(** X13: recall keeps every item the engine found, up to [limit]: it filters
    nothing by world, so what separates the worlds on the read path is the
    engine's answer to the tagged query alone. *)
Theorem recall_keeps_every_result
    (eng : Engine) (request : RecallRequest) (st : State) (raw : list raw_result) :
  cognee_initialized st = true ->
  eng (engine_calls st)
      (CSearch "INSIGHTS" (tag (recall_world_id request) (query request)))
  = Returned raw ->
  exists r,
    (recall eng request st).1 = Ok r /\
    count r = Nat.min (limit request) (length raw) /\
    results r = map (fun x => untag (recall_world_id request) (result_text x))
                    (take (limit request) raw).
Proof.
  intros Hready Hreply.
  rewrite (recall_returned eng request st raw Hready Hreply). cbn [fst].
  eexists. split; [reflexivity|]. cbn [count results]. split; [|reflexivity].
  unfold recall_results. now rewrite length_map, length_take.
Qed.

Lemma recall_keeps_every_result_witness :
  exists r,
    (recall finds_w1 asks_w2 ready_state).1 = Ok r /\
    count r = Nat.min 5 1 /\
    results r = map (fun x => untag "w2" (result_text x))
                    (take 5 [HasText "[WORLD:w1] diamonds at X"]).
Proof.
  exact (recall_keeps_every_result finds_w1 asks_w2 ready_state
           [HasText "[WORLD:w1] diamonds at X"] eq_refl eq_refl).
Defined.

(** ** The cache over a run of requests *)

Lemma remember_ready_memories
    (eng : Engine) (now : Z) (request : RememberRequest) (st : State) :
  cognee_initialized st = true ->
  add_never_raises eng -> cognify_never_raises eng ->
  world_memories (remember eng now request st).2
  = cache_facts (remember_world_id request) (facts request) (world_memories st).
Proof.
  intros Hready Hadd Hcog.
  pose proof (remember_ready_outcome eng Hadd now request st Hready) as Ho.
  cbv zeta in Ho.
  destruct (Hcog (engine_calls st ++ map CAdd (tagged_facts request))) as [rs Hrs].
  rewrite Hrs in Ho.
  destruct (cognify_due now (last_cognify_time st)); apply Ho.
Qed.

(** X20: Over requests served one after the other on an engine that does not
    raise, the cache of a world is what it held before followed by the facts
    of the requests for that world, in the order they were submitted; the
    requests for other worlds add nothing to it. *)
Theorem cache_accumulates_in_order
    (eng : Engine) (requests : list (Z * RememberRequest)) (st : State)
    (world_id : string) :
  cognee_initialized st = true ->
  add_never_raises eng -> cognify_never_raises eng ->
  default [] (world_memories (remember_seq eng requests st) !! world_id)
  = default [] (world_memories st !! world_id) ++ facts_for world_id requests.
Proof.
  intros Hready Hadd Hcog. revert st Hready.
  induction requests as [|[t r] requests IH]; intros st Hready.
  - cbn. now rewrite app_nil_r.
  - cbn [remember_seq facts_for flat_map snd].
    destruct (remember_ready_summary eng Hadd t r st Hready) as (Hr & _ & _).
    rewrite (IH _ Hr).
    rewrite (remember_ready_memories eng t r st Hready Hadd Hcog).
    fold (facts_for world_id requests). rewrite app_assoc. f_equal.
    unfold cache_facts.
    destruct (String.eqb (remember_world_id r) world_id) eqn:E.
    + apply String.eqb_eq in E as <-. now rewrite lookup_insert_eq.
    + apply String.eqb_neq in E. rewrite lookup_insert_ne by exact E.
      now rewrite app_nil_r.
Qed.

Lemma cache_accumulates_in_order_witness :
  default [] (world_memories
                (remember_seq ok_engine
                   [(100, two_facts); (105, one_fact); (130, two_facts)] ready_state)
              !! "w1")
  = default [] (world_memories ready_state !! "w1")
    ++ facts_for "w1" [(100, two_facts); (105, one_fact); (130, two_facts)].
Proof.
  exact (cache_accumulates_in_order ok_engine
           [(100, two_facts); (105, one_fact); (130, two_facts)] ready_state "w1"
           eq_refl ok_engine_add ok_engine_cognify).
Defined.

(** ** Edges *)

(** X18: Clearing a world that has no cache entry answers success, leaves the
    whole cache as it is and writes no line about cleared facts. *)
Theorem clear_world_unknown (world_id : string) (st : State) :
  cognee_initialized st = true ->
  world_memories st !! world_id = None ->
  let out := clear_world world_id st in
  out.1 = Ok (clear_world_response world_id) /\
  world_memories out.2 = world_memories st /\
  log out.2
  = log st ++ [(INFO, "[" +:+ world_id +:+ "] Clearing world memory...");
               (INFO, "[" +:+ world_id +:+ "] ✓ World memory cleared")].
Proof.
  intros Hready Hnone. cbv zeta.
  rewrite (clear_world_ready world_id st Hready). state_simpl.
  rewrite Hnone, (delete_id _ _ Hnone). repeat split.
Qed.

Lemma clear_world_unknown_witness :
  let out := clear_world "unknown" ready_state in
  out.1 = Ok (clear_world_response "unknown") /\
  world_memories out.2 = world_memories ready_state /\
  log out.2
  = log ready_state ++ [(INFO, "[" +:+ "unknown" +:+ "] Clearing world memory...");
                        (INFO, "[" +:+ "unknown" +:+ "] ✓ World memory cleared")].
Proof. exact (clear_world_unknown "unknown" ready_state eq_refl eq_refl). Defined.

(** X9: Every text a remember call hands to the engine is one of its facts with
    the marker of its world in front, and the call never searches or prunes:
    whatever the engine answers, a call it had not seen before is such an add
    or the cognify. *)
Theorem remember_sends_only_tagged
    (eng : Engine) (now : Z) (request : RememberRequest) (st : State) (c : call) :
  In c (engine_calls (remember eng now request st).2) ->
  In c (engine_calls st) \/
  c = CCognify \/
  exists fact, In fact (facts request) /\ c = CAdd (tag (remember_world_id request) fact).
Proof.
  destruct (remember_any eng now request st) as (_ & (k & b & Hc & _) & _).
  rewrite Hc. intros Hin.
  apply in_app_or in Hin as [Hin | Hin]; [now left | right].
  apply in_app_or in Hin as [Hin | Hin].
  - right. apply in_map_iff in Hin as (text & <- & Hin).
    apply list_elem_of_In, elem_of_take in Hin as (i & Hi & _).
    unfold tagged_facts in Hi.
    apply list_elem_of_lookup_2, list_elem_of_In, in_map_iff in Hi
      as (fact & <- & Hfact).
    now exists fact.
  - left. destruct b; [|destruct Hin]. destruct Hin as [<-|[]]. reflexivity.
Qed.

(** ** A request with nothing else in flight *)

(** X23: A remember request that the event loop resumes with no other request in
    flight is over after one stretch per fact and two more, and what it
    answers and leaves behind is what the handler gives as a whole; resuming
    it further changes nothing. *)
Theorem request_alone_is_handler (eng : Engine) (t : Task) (more : nat) (st : State) :
  run_alone eng t (length (facts (task_request t)) + 2 + more) Start st
  = (Done (remember eng (task_now t) (task_request t) st).1,
     (remember eng (task_now t) (task_request t) st).2).
Proof.
  assert (Hsplit : forall n m p s,
            run_alone eng t (n + m) p s
            = let '(p', s') := run_alone eng t n p s in run_alone eng t m p' s').
  { induction n as [|n IH]; intros m p s; cbn [Nat.add run_alone].
    - reflexivity.
    - destruct (step eng t p s) as [p' s']. apply IH. }
  rewrite Hsplit, run_alone_remember.
  destruct (remember eng (task_now t) (task_request t) st) as [res st'].
  cbn [fst snd]. apply run_alone_done.
Qed.

Lemma remember_sends_only_tagged_witness :
  In (CAdd "[WORLD:w1] A") (engine_calls ready_state) \/
  CAdd "[WORLD:w1] A" = CCognify \/
  exists fact, In fact (facts two_facts) /\
               CAdd "[WORLD:w1] A" = CAdd (tag (remember_world_id two_facts) fact).
Proof.
  apply (remember_sends_only_tagged ok_engine 100 two_facts ready_state).
  vm_compute. right. left. reflexivity.
Defined.
